(** * Student progress tracking: event recorder and statistics aggregator

    A shallow embedding of [server/src/controllers/studentProgressController.ts]
    (the five handlers mounted under [/progress] and the helper [getTopItems]),
    with the properties of the record store, the event logs and the derived
    statistics that the specification states about them.

    Conventions of the embedding.
    - A request body is a JSON object: a finite map from field names to
      JavaScript values; a field that is absent reads as [undefined].
    - A JSON number is the rational that its literal denotes ([Q]).
      Arithmetic on numbers is the arithmetic of JavaScript: IEEE 754
      binary64, rounding to nearest with ties to even, as the standard
      library specifies it ([SpecFloat], precision 53, exponents up to
      1024).
    - The record store is a finite map from [userId] to the stored record.
      Every call of the store is appended to a trace, and a call may throw.
    - The clock is a stream of instants; each [new Date()] consumes one. *)

From Stdlib Require Import QArith Qpower Ascii DecimalString SpecFloat.
From stdpp Require Import gmap strings list.

Local Open Scope string_scope.
Local Set Warnings "-register-all".
Local Set Warnings "-clear-no-such-hyp".

(** ** JavaScript values as they arrive in [req.body] *)

Inductive JsValue : Type :=
| JUndefined
| JNull
| JBool (b : bool)
| JNum (q : Q)
| JStr (s : string)
| JArr (elems : list JsValue)
| JObj (props : list (string * JsValue)).

(** [ToBoolean]: [undefined], [null], [false], [0] and [""] are falsy. *)
Definition truthy (v : JsValue) : bool :=
  match v with
  | JUndefined | JNull => false
  | JBool b => b
  | JNum q => negb (Qeq_bool q 0)
  | JStr s => negb (String.eqb s "")
  | JArr _ | JObj _ => true
  end.

(** [v === undefined] *)
Definition is_undefined (v : JsValue) : bool :=
  match v with JUndefined => true | _ => false end.

(** [names.includes(v)] on an array of string literals: strict equality with
    one of them, so only a string can be included. *)
Definition includes (names : list string) (v : JsValue) : bool :=
  match v with
  | JStr s => existsb (String.eqb s) names
  | _ => false
  end.

Abbreviation Body := (gmap string JsValue).

(** Destructuring [const { f } = req.body]. *)
Definition field (b : Body) (f : string) : JsValue :=
  default JUndefined (b !! f).

(** ** The progress record *)

(** The schema of the model [StudentProgress] (the second document of
    [server/src/models/categoryModel.ts]): [lessonAccessSchema],
    [quizAttemptSchema], [discussionActivitySchema] and
    [studentProgressSchema], attribute by attribute.  An attribute that the
    schema does not mark [required] is an [option], except [completed], which
    the schema and the handler both default to [true].  The attributes
    [createdAt] and [updatedAt] that [timestamps: true] makes the store add
    are left out: no handler reads them.  [courseId] is [la_courseId],
    [qa_courseId] or [da_courseId] according to the log. *)
Record LessonAccess := mkLessonAccess {
  la_courseId : string;
  la_sectionId : string;
  la_chapterId : string;
  accessTimestamp : string
}.

Record QuizAttempt := mkQuizAttempt {
  qa_quizId : string;
  qa_courseId : string;
  attemptTimestamp : string;
  score : Q;
  timeTaken : option Q;
  completed : bool
}.

Inductive ActivityType := Comment | Reply | Reaction.

Record DiscussionActivity := mkDiscussionActivity {
  da_courseId : string;
  da_sectionId : option string;
  da_chapterId : option string;
  activityType : ActivityType;
  commentId : option string;
  da_timestamp : string
}.

Record StudentProgress := mkStudentProgress {
  userId : string;
  lessonAccessHistory : list LessonAccess;
  quizAttempts : list QuizAttempt;
  discussionActivities : list DiscussionActivity;
  lastActive : string
}.

(** ** Typing of the stored attributes *)

(** The type check that the schema of [StudentProgress]
    ([server/src/models/categoryModel.ts], second document) makes when a
    document is saved.  Identifiers and timestamps are [String], [score] and
    [timeTaken] are [Number], [completed] is [Boolean], [activityType] is a
    [String] of the [enum] ["Comment"], ["Reply"], ["Reaction"], and the
    attributes without [required: true] may be absent.  A value of another
    type cannot be stored: saving the document throws, which the handlers
    catch.  The bounds that the store itself puts on the magnitude and the
    precision of a number are not modelled. *)
Definition asString (v : JsValue) : option string :=
  match v with JStr s => Some s | _ => None end.

Definition asNumber (v : JsValue) : option Q :=
  match v with JNum q => Some q | _ => None end.

Definition asBoolean (v : JsValue) : option bool :=
  match v with JBool b => Some b | _ => None end.

Definition asOptional {A} (as_ : JsValue → option A) (v : JsValue)
  : option (option A) :=
  match v with
  | JUndefined => Some None
  | _ => Some <$> as_ v
  end.

Definition asActivityType (v : JsValue) : option ActivityType :=
  match v with
  | JStr s =>
      if String.eqb s "Comment" then Some Comment
      else if String.eqb s "Reply" then Some Reply
      else if String.eqb s "Reaction" then Some Reaction
      else None
  | _ => None
  end.

Definition activityTypeName (t : ActivityType) : string :=
  match t with
  | Comment => "Comment"
  | Reply => "Reply"
  | Reaction => "Reaction"
  end.

(** ** The world a handler runs in: store, trace of store calls, clock *)

Inductive StoreCall :=
| CallGet (key : string)
| CallSave (doc : StudentProgress).

Record World := mkWorld {
  db : gmap string StudentProgress;
  trace : list StoreCall;
  (** [faulty n] tells whether the [n]-th call of the store throws. *)
  faulty : nat → bool;
  (** [instants n] is what the [n]-th reading of the clock returns. *)
  instants : nat → string;
  readings : nat
}.

Inductive Thrown := StoreError | TypeMismatch.

Inductive Outcome (A : Type) :=
| Returned (a : A)
| Threw (e : Thrown).
Arguments Returned {A} a.
Arguments Threw {A} e.

Definition M (A : Type) : Type := World → Outcome A * World.

Definition ret {A} (a : A) : M A := fun w => (Returned a, w).

Definition bind {A B} (m : M A) (k : A → M B) : M B :=
  fun w =>
    match m w with
    | (Returned a, w') => k a w'
    | (Threw e, w') => (Threw e, w')
    end.

Definition throw {A} (e : Thrown) : M A := fun w => (Threw e, w).

(** [try { body } catch (error) { handler }] *)
Definition try_catch {A} (body : M A) (handler : Thrown → M A) : M A :=
  fun w =>
    match body w with
    | (Returned a, w') => (Returned a, w')
    | (Threw e, w') => handler e w'
    end.

Notation "'let*' x ':=' m 'in' k" := (bind m (fun x => k))
  (at level 10, x name, m at level 100, k at level 200).

Definition logCall (c : StoreCall) (w : World) : World :=
  mkWorld (db w) (trace w ++ [c]) (faulty w) (instants w) (readings w).

(** [await StudentProgress.get({ userId })] *)
Definition store_get (key : string) : M (option StudentProgress) :=
  fun w =>
    let w' := logCall (CallGet key) w in
    if faulty w (length (trace w)) then (Threw StoreError, w')
    else (Returned (db w !! key), w').

(** [await progress.save()]: the whole record is written under its key. *)
Definition store_save (doc : StudentProgress) : M unit :=
  fun w =>
    let w' := logCall (CallSave doc) w in
    if faulty w (length (trace w)) then (Threw StoreError, w')
    else (Returned tt,
          mkWorld (<[userId doc := doc]> (db w')) (trace w') (faulty w')
                  (instants w') (readings w')).

(** [new Date().toISOString()] *)
Definition currentInstant : M string :=
  fun w =>
    (Returned (instants w (readings w)),
     mkWorld (db w) (trace w) (faulty w) (instants w) (S (readings w))).

(** Storing a value that the schema does not admit. *)
Definition typed {A} (o : option A) : M A :=
  match o with
  | Some a => ret a
  | None => throw TypeMismatch
  end.

(** ** Statistics aggregator *)

(** *** [Array.prototype.sort] with a comparator

    The sort is stable, and a comparator result that is [NaN] (here [None])
    counts as [+0].  For a consistent comparator, stability fixes the result
    whatever the algorithm ([Array_sort_stable] below characterises it), so a
    stable insertion sort stands for the engine's.  For a comparator that is
    not consistent, as when some of its results are [NaN], the language
    leaves the order to the implementation, and the merge sort of an engine
    need not agree with the insertion sort here; no theorem below relies on
    the order that the model gives there. *)

Section Array_sort.
Context {A : Type} (comparefn : A → A → option Z).

Definition sortCompare (a b : A) : Z := default 0%Z (comparefn a b).

Fixpoint insertSorted (x : A) (l : list A) : list A :=
  match l with
  | [] => [x]
  | y :: l' =>
      if (sortCompare x y <=? 0)%Z then x :: l else y :: insertSorted x l'
  end.

Fixpoint Array_sort (l : list A) : list A :=
  match l with
  | [] => []
  | x :: l' => insertSorted x (Array_sort l')
  end.
End Array_sort.

(** *** The [frequency] object of [getTopItems]

    An object created by [{}]: its own properties in creation order, and the
    members it inherits from [Object.prototype]. *)

(** The value of a property of [frequency]: a count, or (after an inherited
    member went through [+ 1]) a string that does not denote a number. *)
Inductive FreqValue :=
| FCount (n : nat)
| FText.

Abbreviation JsObject := (list (string * FreqValue)).

Definition objectPrototypeMembers : list string :=
  [ "constructor"; "__defineGetter__"; "__defineSetter__"; "hasOwnProperty";
    "__lookupGetter__"; "__lookupSetter__"; "isPrototypeOf";
    "propertyIsEnumerable"; "toString"; "valueOf"; "__proto__";
    "toLocaleString" ].

Definition inherited (k : string) : bool :=
  existsb (String.eqb k) objectPrototypeMembers.

Fixpoint getOwn (o : JsObject) (k : string) : option FreqValue :=
  match o with
  | [] => None
  | (k', v) :: o' => if String.eqb k' k then Some v else getOwn o' k
  end.

Inductive Lookup :=
| Own (v : FreqValue)
| Inherited
| Missing.

(** [frequency[k]] read *)
Definition getProp (o : JsObject) (k : string) : Lookup :=
  match getOwn o k with
  | Some v => Own v
  | None => if inherited k then Inherited else Missing
  end.

Fixpoint setOwn (o : JsObject) (k : string) (v : FreqValue) : JsObject :=
  match o with
  | [] => [(k, v)]
  | (k', v') :: o' =>
      if String.eqb k' k then (k', v) :: o' else (k', v') :: setOwn o' k v
  end.

(** [frequency[k] = v]: the setter of [__proto__] ignores a value that is
    neither an object nor [null]; any other key becomes (or stays) an own
    property. *)
Definition setProp (o : JsObject) (k : string) (v : FreqValue) : JsObject :=
  if String.eqb k "__proto__" then o else setOwn o k v.

(** [(r || 0) + 1] *)
Definition plusOne (r : Lookup) : FreqValue :=
  match r with
  | Own (FCount n) => FCount (n + 1)
  | Own FText => FText
  | Inherited => FText
  | Missing => FCount 1
  end.

(** Array indices.  A property key is an array index when it is the canonical
    numeric string of an integer from [0] to [2^32 - 2]: converting the key to
    a number and back gives the key again.  Only strings of decimal digits can
    pass that round trip to an integer. *)
Definition numberOf (k : string) : option N :=
  N.of_uint <$> NilEmpty.uint_of_string k.

Definition decimalOf (n : N) : string :=
  NilEmpty.string_of_uint (N.to_uint n).

Definition arrayIndex (k : string) : option N :=
  match numberOf k with
  | Some n =>
      if String.eqb (decimalOf n) k && (n <? 2 ^ 32 - 1)%N then Some n
      else None
  | None => None
  end.

Definition isIndexKey (p : string * FreqValue) : bool :=
  bool_decide (is_Some (arrayIndex p.1)).

Definition indexOf (p : string * FreqValue) : Z :=
  Z.of_N (default 0%N (arrayIndex p.1)).

(** [Object.entries(o)]: the array-index keys in ascending numeric order,
    then the other keys in creation order. *)
Definition Object_entries (o : JsObject) : list (string * FreqValue) :=
  Array_sort (fun a b => Some (indexOf a - indexOf b)%Z) (filter isIndexKey o)
  ++ filter (fun p => negb (isIndexKey p)) o.

Record TopItem := mkTopItem {
  value : string;
  count : FreqValue
}.

(** [b.count - a.count], [None] when it is [NaN]. *)
Definition byCountDescending (a b : TopItem) : option Z :=
  match count b, count a with
  | FCount nb, FCount na => Some (Z.of_nat nb - Z.of_nat na)%Z
  | _, _ => None
  end.

Definition getTopItems {A} (array : list A) (key : A → string) (limit : nat)
  : list TopItem :=
  let frequency :=
    fold_left
      (fun frequency item =>
         let value := key item in
         setProp frequency value (plusOne (getProp frequency value)))
      array [] in
  take limit
    (Array_sort byCountDescending
       (map (fun '(value, count) => mkTopItem value count)
            (Object_entries frequency))).

(** *** Numbers

    A JavaScript Number is a binary64 value.  [toNumber q] is the Number that
    a JSON literal or a stored number denoting the rational [q] is read as:
    the quotient of numerator by denominator, rounded once.  [+] and [/] are
    the binary64 sum and quotient. *)
Definition toNumber (q : Q) : spec_float :=
  match Qnum q with
  | Z0 => S754_zero false
  | Zpos n =>
      SFdiv 53 1024 (S754_finite false n 0) (S754_finite false (Qden q) 0)
  | Zneg n =>
      SFdiv 53 1024 (S754_finite true n 0) (S754_finite false (Qden q) 0)
  end.

Definition Number_add : spec_float → spec_float → spec_float := SFadd 53 1024.

Definition Number_div : spec_float → spec_float → spec_float := SFdiv 53 1024.

(** *** The statistics object of [getStudentStatistics] *)

Record DiscussionBreakdown := mkDiscussionBreakdown {
  comments : nat;
  replies : nat;
  reactions : nat
}.

Record Statistics := mkStatistics {
  totalLessonsAccessed : nat;
  uniqueLessonsAccessed : nat;
  totalQuizAttempts : nat;
  uniqueQuizAttempts : nat;
  averageQuizScore : spec_float;
  totalDiscussionActivities : nat;
  discussionBreakdown : DiscussionBreakdown;
  mostAccessedCourses : list TopItem;
  stats_lastActive : string
}.

(** The template literal [`${courseId}:${sectionId}:${chapterId}`] *)
Definition lessonKey (access : LessonAccess) : string :=
  la_courseId access +:+ ":" +:+ la_sectionId access +:+ ":"
  +:+ la_chapterId access.

(** [new Set(keys).size] *)
Definition Set_size (keys : list string) : nat :=
  size (list_to_set keys : gset string).

(** [activity.activityType === name] *)
Definition hasType (name : string) (activity : DiscussionActivity) : bool :=
  String.eqb (activityTypeName (activityType activity)) name.

Definition computeStatistics (progress : StudentProgress) : Statistics :=
  {| totalLessonsAccessed := length (lessonAccessHistory progress);
     uniqueLessonsAccessed :=
       Set_size (map lessonKey (lessonAccessHistory progress));
     totalQuizAttempts := length (quizAttempts progress);
     uniqueQuizAttempts := Set_size (map qa_quizId (quizAttempts progress));
     averageQuizScore :=
       if (0 <? length (quizAttempts progress))%nat
       then Number_div
              (fold_left
                 (fun sum attempt => Number_add sum (toNumber (score attempt)))
                 (quizAttempts progress) (S754_zero false))
              (toNumber
                 (inject_Z (Z.of_nat (length (quizAttempts progress)))))
       else S754_zero false;
     totalDiscussionActivities := length (discussionActivities progress);
     discussionBreakdown :=
       {| comments :=
            length (filter (fun a => hasType "Comment" a = true)
                           (discussionActivities progress));
          replies :=
            length (filter (fun a => hasType "Reply" a = true)
                           (discussionActivities progress));
          reactions :=
            length (filter (fun a => hasType "Reaction" a = true)
                           (discussionActivities progress)) |};
     mostAccessedCourses :=
       getTopItems (lessonAccessHistory progress) la_courseId 5;
     stats_lastActive := lastActive progress |}.

(** ** Requests and responses *)

(** What [getAuth(req)] yields: possibly no object at all, and inside the
    object a [userId] that is [null] for a caller who is not signed in. *)
Record AuthObject := mkAuthObject { auth_userId : option string }.

Record Request := mkRequest {
  params_userId : string;
  getAuth : option AuthObject;
  body : Body
}.

Inductive Payload :=
| NoData
| ProgressData (progress : StudentProgress)
| StatsData (stats : Statistics)
| ErrorData (error : Thrown).

(** A response: [res.status(n).json({ message, data | error })]; without a
    call of [res.status] the status is 200. *)
Record Response := mkResponse {
  status : nat;
  message : string;
  data : Payload
}.

(** [!auth || auth.userId !== userId] *)
Definition accessDenied (auth : option AuthObject) (userId : string) : bool :=
  match auth with
  | None => true
  | Some a => negb (bool_decide (auth_userId a = Some userId))
  end.

Definition denied : Response := mkResponse 403 "Access denied" NoData.

(** An in-memory document of the model.  [None] stands for a document one of
    whose attributes has a type that the schema does not admit; saving it
    throws before the store is called. *)
Definition save (document : option StudentProgress) : M StudentProgress :=
  let* progress := typed document in
  let* _ := store_save progress in
  ret progress.

(** The in-place updates of an existing record: [log.push(e)] followed by
    [progress.lastActive = currentTime]. *)
Definition pushLessonAccess (progress : StudentProgress) (e : LessonAccess)
    (currentTime : string) : StudentProgress :=
  mkStudentProgress (userId progress)
    (lessonAccessHistory progress ++ [e])
    (quizAttempts progress)
    (discussionActivities progress)
    currentTime.

Definition pushQuizAttempt (progress : StudentProgress) (e : QuizAttempt)
    (currentTime : string) : StudentProgress :=
  mkStudentProgress (userId progress)
    (lessonAccessHistory progress)
    (quizAttempts progress ++ [e])
    (discussionActivities progress)
    currentTime.

Definition pushDiscussionActivity (progress : StudentProgress)
    (e : DiscussionActivity) (currentTime : string) : StudentProgress :=
  mkStudentProgress (userId progress)
    (lessonAccessHistory progress)
    (quizAttempts progress)
    (discussionActivities progress ++ [e])
    currentTime.

(** ** The handlers *)

Definition getStudentProgress (req : Request) : M Response :=
  let userId := params_userId req in
  let auth := getAuth req in
  if accessDenied auth userId then ret denied
  else
    try_catch
      (let* progress := store_get userId in
       match progress with
       | None =>
           let* now := currentInstant in
           let newProgress := mkStudentProgress userId [] [] [] now in
           let* _ := store_save newProgress in
           ret (mkResponse 200 "Student progress initialized"
                           (ProgressData newProgress))
       | Some progress =>
           ret (mkResponse 200 "Student progress retrieved successfully"
                           (ProgressData progress))
       end)
      (fun error =>
         ret (mkResponse 500 "Error retrieving student progress"
                         (ErrorData error))).

(** The object literal pushed by [recordLessonAccess]. *)
Definition lessonAccessEntry (courseId sectionId chapterId : JsValue)
    (currentTime : string) : option LessonAccess :=
  c ← asString courseId;
  s ← asString sectionId;
  ch ← asString chapterId;
  Some (mkLessonAccess c s ch currentTime).

(** [!courseId || !sectionId || !chapterId] *)
Definition lessonAccessIncomplete (courseId sectionId chapterId : JsValue)
  : bool :=
  negb (truthy courseId) || negb (truthy sectionId) || negb (truthy chapterId).

Definition recordLessonAccess (req : Request) : M Response :=
  let userId := params_userId req in
  let courseId := field (body req) "courseId" in
  let sectionId := field (body req) "sectionId" in
  let chapterId := field (body req) "chapterId" in
  let auth := getAuth req in
  if accessDenied auth userId then ret denied
  else if lessonAccessIncomplete courseId sectionId chapterId
  then ret (mkResponse 400
         "Missing required fields: courseId, sectionId, and chapterId are required"
         NoData)
  else
    try_catch
      (let* progress := store_get userId in
       let* currentTime := currentInstant in
       let entry := lessonAccessEntry courseId sectionId chapterId currentTime in
       let document :=
         match progress with
         | None =>
             (fun e => mkStudentProgress userId [e] [] [] currentTime) <$> entry
         | Some progress =>
             (fun e => pushLessonAccess progress e currentTime) <$> entry
         end in
       let* progress := save document in
       ret (mkResponse 200 "Lesson access recorded successfully"
                       (ProgressData progress)))
      (fun error =>
         ret (mkResponse 500 "Error recording lesson access"
                         (ErrorData error))).

(** The object literal pushed by [recordQuizAttempt]. *)
Definition quizAttemptEntry (quizId courseId score timeTaken completed : JsValue)
    (currentTime : string) : option QuizAttempt :=
  q ← asString quizId;
  c ← asString courseId;
  sc ← asNumber score;
  t ← asOptional asNumber timeTaken;
  done ← asBoolean (if negb (is_undefined completed) then completed
                    else JBool true);
  Some (mkQuizAttempt q c currentTime sc t done).

(** [!quizId || !courseId || score === undefined] *)
Definition quizAttemptIncomplete (quizId courseId score : JsValue) : bool :=
  negb (truthy quizId) || negb (truthy courseId) || is_undefined score.

Definition recordQuizAttempt (req : Request) : M Response :=
  let userId := params_userId req in
  let quizId := field (body req) "quizId" in
  let courseId := field (body req) "courseId" in
  let score := field (body req) "score" in
  let timeTaken := field (body req) "timeTaken" in
  let completed := field (body req) "completed" in
  let auth := getAuth req in
  if accessDenied auth userId then ret denied
  else if quizAttemptIncomplete quizId courseId score
  then ret (mkResponse 400
         "Missing required fields: quizId, courseId, and score are required"
         NoData)
  else
    try_catch
      (let* progress := store_get userId in
       let* currentTime := currentInstant in
       let entry :=
         quizAttemptEntry quizId courseId score timeTaken completed
                          currentTime in
       let document :=
         match progress with
         | None =>
             (fun e => mkStudentProgress userId [] [e] [] currentTime) <$> entry
         | Some progress =>
             (fun e => pushQuizAttempt progress e currentTime) <$> entry
         end in
       let* progress := save document in
       ret (mkResponse 200 "Quiz attempt recorded successfully"
                       (ProgressData progress)))
      (fun error =>
         ret (mkResponse 500 "Error recording quiz attempt"
                         (ErrorData error))).

(** The object literal pushed by [recordDiscussionActivity]. *)
Definition discussionActivityEntry
    (courseId sectionId chapterId activityType commentId : JsValue)
    (currentTime : string) : option DiscussionActivity :=
  c ← asString courseId;
  s ← asOptional asString sectionId;
  ch ← asOptional asString chapterId;
  t ← asActivityType activityType;
  cm ← asOptional asString commentId;
  Some (mkDiscussionActivity c s ch t cm currentTime).

Definition validActivityTypes : list string := ["Comment"; "Reply"; "Reaction"].

(** [!courseId || !activityType] *)
Definition discussionActivityIncomplete (courseId activityType : JsValue)
  : bool :=
  negb (truthy courseId) || negb (truthy activityType).

Definition recordDiscussionActivity (req : Request) : M Response :=
  let userId := params_userId req in
  let courseId := field (body req) "courseId" in
  let sectionId := field (body req) "sectionId" in
  let chapterId := field (body req) "chapterId" in
  let activityType := field (body req) "activityType" in
  let commentId := field (body req) "commentId" in
  let auth := getAuth req in
  if accessDenied auth userId then ret denied
  else if discussionActivityIncomplete courseId activityType
  then ret (mkResponse 400
         "Missing required fields: courseId and activityType are required"
         NoData)
  else if negb (includes validActivityTypes activityType)
  then ret (mkResponse 400
         "Invalid activityType. Must be one of: Comment, Reply, Reaction"
         NoData)
  else
    try_catch
      (let* progress := store_get userId in
       let* currentTime := currentInstant in
       let entry :=
         discussionActivityEntry courseId sectionId chapterId activityType
                                 commentId currentTime in
       let document :=
         match progress with
         | None =>
             (fun e => mkStudentProgress userId [] [] [e] currentTime) <$> entry
         | Some progress =>
             (fun e => pushDiscussionActivity progress e currentTime) <$> entry
         end in
       let* progress := save document in
       ret (mkResponse 200 "Discussion activity recorded successfully"
                       (ProgressData progress)))
      (fun error =>
         ret (mkResponse 500 "Error recording discussion activity"
                         (ErrorData error))).

Definition getStudentStatistics (req : Request) : M Response :=
  let userId := params_userId req in
  let auth := getAuth req in
  if accessDenied auth userId then ret denied
  else
    try_catch
      (let* progress := store_get userId in
       match progress with
       | None =>
           ret (mkResponse 404 "No progress data found for this student"
                           NoData)
       | Some progress =>
           ret (mkResponse 200 "Student statistics retrieved successfully"
                           (StatsData (computeStatistics progress)))
       end)
      (fun error =>
         ret (mkResponse 500 "Error retrieving student statistics"
                         (ErrorData error))).

(** ** The routes of [routes/studentProgressRoutes.ts] *)

Inductive Route :=
| GetProgress            (* GET  /:userId *)
| PostLessonAccess       (* POST /:userId/lesson-access *)
| PostQuizAttempt        (* POST /:userId/quiz-attempt *)
| PostDiscussionActivity (* POST /:userId/discussion-activity *)
| GetStatistics.         (* GET  /:userId/statistics *)

Definition router (route : Route) : Request → M Response :=
  match route with
  | GetProgress => getStudentProgress
  | PostLessonAccess => recordLessonAccess
  | PostQuizAttempt => recordQuizAttempt
  | PostDiscussionActivity => recordDiscussionActivity
  | GetStatistics => getStudentStatistics
  end.

(** ** Upload of a course document ([controllers/courseController.ts]) *)

(** What the handler draws from its surroundings: the identifier that
    [uuidv4()] returns, two environment variables, the signing call of the
    storage client ([None] when it throws), and the conversion to text
    of a value that is not a string, for a template literal. *)
Record UploadEnv := mkUploadEnv {
  uuidv4 : string;
  S3_BUCKET_NAME : option string;
  CLOUDFRONT_DOMAIN : option string;
  getSignedUrl : string → string * string * nat * JsValue → option string;
  textOf : JsValue → string
}.

(** [getDocumentType]: the document type of a MIME type.  The [switch]
    compares with [===], so a value that is not a string falls to the
    default. *)
Definition getDocumentType (mimeType : JsValue) : string :=
  match mimeType with
  | JStr mimeType =>
      if String.eqb mimeType
           "application/vnd.openxmlformats-officedocument.wordprocessingml.document"
      then "docx"
      else if String.eqb mimeType "application/pdf" then "pdf"
      else if String.eqb mimeType
           "application/vnd.openxmlformats-officedocument.presentationml.presentation"
      then "ppt"
      else if String.eqb mimeType
           "application/vnd.openxmlformats-officedocument.spreadsheetml.sheet"
      then "xlsx"
      else "unknown"
  | _ => "unknown"
  end.

Definition validFileTypes : list string :=
  [ "application/pdf";
    "application/vnd.openxmlformats-officedocument.wordprocessingml.document";
    "application/vnd.openxmlformats-officedocument.presentationml.presentation";
    "application/vnd.openxmlformats-officedocument.spreadsheetml.sheet" ].

(** The [data] of the answer of [getUploadDocumentUrl]. *)
Record DocumentUpload := mkDocumentUpload {
  uploadUrl : string;
  documentUrl : string;
  documentType : string
}.

Record UploadResponse := mkUploadResponse {
  upload_status : nat;
  upload_message : string;
  upload_data : option DocumentUpload
}.

(** [`${process.env.NAME}`]: a variable that is not set reads [undefined]. *)
Definition envText (variable : option string) : string :=
  default "undefined" variable.

(** [`${v}`]: a string inserts itself, another value its conversion. *)
Definition templateText (env : UploadEnv) (v : JsValue) : string :=
  match v with
  | JStr s => s
  | _ => textOf env v
  end.

(** [getUploadDocumentUrl], given the [courseId] of the path and the body;
    the parameters of the signing call are the bucket, the key, the expiry in
    seconds and the content type. *)
Definition getUploadDocumentUrl (env : UploadEnv) (courseId : string)
    (b : Body) : UploadResponse :=
  let fileName := field b "fileName" in
  let fileType := field b "fileType" in
  if negb (truthy fileName) || negb (truthy fileType)
  then mkUploadResponse 400 "File name and type are required" None
  else if negb (includes validFileTypes fileType)
  then mkUploadResponse 400
         "Invalid file type. Supported types are PDF, DOCX, PPT, and XLSX"
         None
  else
    let uniqueId := uuidv4 env in
    let s3Key :=
      "documents/courses/" +:+ courseId +:+ "/" +:+ uniqueId +:+ "-"
      +:+ templateText env fileName in
    let s3Params :=
      (default "" (S3_BUCKET_NAME env), s3Key, 120, fileType) in
    match getSignedUrl env "putObject" s3Params with
    | Some uploadUrl =>
        let documentUrl := envText (CLOUDFRONT_DOMAIN env) +:+ "/" +:+ s3Key in
        mkUploadResponse 200 "Document upload URL generated successfully"
          (Some (mkDocumentUpload uploadUrl documentUrl
                   (getDocumentType fileType)))
    | None =>
        mkUploadResponse 500 "Error generating document upload URL" None
    end.

(** ** Quizzes: reading and deleting ([controllers/quizController.ts]) *)

(** The documents of [models/quizModel.ts]; an attribute that the schema does
    not require may be absent. *)
Record QuizOption := mkQuizOption {
  option_id : string;
  option_text : string;
  isCorrect : option bool
}.

Record Question := mkQuestion {
  questionId : string;
  question_text : string;
  question_type : string;
  options : option (list QuizOption);
  points : option Q;
  correctAnswerExplanation : option string
}.

Record Quiz := mkQuiz {
  quizId : string;
  quiz_courseId : string;
  title : string;
  description : option string;
  timeLimit : option Q;
  passingScore : option Q;
  shuffleQuestions : option bool;
  questions : option (list Question)
}.

(** What a handler of the quiz controller reads of a request: the two path
    parameters and the [userId] of [getAuth(req)], [null] for a caller who is
    not signed in. *)
Record QuizRequest := mkQuizRequest {
  params_quizId : string;
  params_questionId : string;
  caller : option string
}.

Inductive QuizPayload :=
| NoQuizData
| QuizData (quiz : Quiz)
| QuestionData (question : Question)
| QuizErrorData (error : Thrown).

Record QuizResponse := mkQuizResponse {
  quiz_status : nat;
  quiz_message : string;
  quiz_data : QuizPayload
}.

Inductive QuizCall :=
| CallQuizGet (key : string)
| CallCourseGet (key : string)
| CallQuizSave (quiz : Quiz)
| CallQuizDelete (key : string).

(** The [default] entries of [optionSchema], [questionSchema] and
    [quizSchema] in [models/quizModel.ts]: when a document is saved, an
    attribute that is absent and has a default is written with it, in the
    quiz and in every question and option that it nests.  (The attributes
    [createdAt] and [updatedAt] of [timestamps: true] are left out.) *)
Definition optionDefaults (o : QuizOption) : QuizOption :=
  mkQuizOption (option_id o) (option_text o)
    (Some (default false (isCorrect o))).

Definition questionDefaults (q : Question) : Question :=
  mkQuestion (questionId q) (question_text q) (question_type q)
    (fmap (M := list) optionDefaults <$> options q)
    (Some (default 1%Q (points q)))
    (correctAnswerExplanation q).

Definition quizDefaults (quiz : Quiz) : Quiz :=
  mkQuiz (quizId quiz) (quiz_courseId quiz) (title quiz) (description quiz)
    (Some (default 0%Q (timeLimit quiz)))
    (Some (default 70%Q (passingScore quiz)))
    (Some (default false (shuffleQuestions quiz)))
    (fmap (M := list) questionDefaults <$> questions quiz).

(** [quiz.questions.splice(questionIndex, 1)] *)
Definition withoutQuestion (quiz : Quiz) (questionIndex : nat) : Quiz :=
  mkQuiz (quizId quiz) (quiz_courseId quiz) (title quiz) (description quiz)
    (timeLimit quiz) (passingScore quiz) (shuffleQuestions quiz)
    (delete questionIndex <$> questions quiz).

Section QuizController.
(** The course model ([models/courseModel.ts]) is not among the sources; the
    controller reads one attribute of a course, its [teacherId]. *)
Context {Course : Type} (teacherId : Course → string).

Record QuizWorld := mkQuizWorld {
  quizzes : gmap string Quiz;
  courses : gmap string Course;
  calls : list QuizCall;
  (** [failing n] tells whether the [n]-th call of a store throws. *)
  failing : nat → bool
}.

Definition QM (A : Type) : Type := QuizWorld → Outcome A * QuizWorld.

Definition qret {A} (a : A) : QM A := fun w => (Returned a, w).

Definition qbind {A B} (m : QM A) (k : A → QM B) : QM B :=
  fun w =>
    match m w with
    | (Returned a, w') => k a w'
    | (Threw e, w') => (Threw e, w')
    end.

Definition qtry {A} (body : QM A) (handler : Thrown → QM A) : QM A :=
  fun w =>
    match body w with
    | (Returned a, w') => (Returned a, w')
    | (Threw e, w') => handler e w'
    end.

(** A call of a store: it is recorded, then it throws or takes effect. *)
Definition storeCall {A} (call : QuizCall) (result : QuizWorld → A)
    (effect : gmap string Quiz → gmap string Quiz) : QM A :=
  fun w =>
    if failing w (length (calls w))
    then (Threw StoreError,
          mkQuizWorld (quizzes w) (courses w) (calls w ++ [call]) (failing w))
    else (Returned (result w),
          mkQuizWorld (effect (quizzes w)) (courses w) (calls w ++ [call])
                      (failing w)).

(** [await Quiz.get(quizId)] *)
Definition Quiz_get (key : string) : QM (option Quiz) :=
  storeCall (CallQuizGet key) (fun w => quizzes w !! key) id.

(** [await Course.get(courseId)] *)
Definition Course_get (key : string) : QM (option Course) :=
  storeCall (CallCourseGet key) (fun w => courses w !! key) id.

(** [await quiz.save()]: the document is written under its key, with the
    defaults of the schema for the attributes that it lacks. *)
Definition Quiz_save (quiz : Quiz) : QM unit :=
  storeCall (CallQuizSave quiz) (fun _ => tt)
            (insert (quizId quiz) (quizDefaults quiz)).

(** [await Quiz.delete(quizId)] *)
Definition Quiz_delete (key : string) : QM unit :=
  storeCall (CallQuizDelete key) (fun _ => tt) (delete key).

Definition answer (status : nat) (message : string) (data : QuizPayload)
  : QM QuizResponse :=
  qret (mkQuizResponse status message data).

(** [course.teacherId !== userId] *)
Definition notTeacher (course : Course) (userId : option string) : bool :=
  negb (bool_decide (Some (teacherId course) = userId)).

Definition getQuiz (req : QuizRequest) : QM QuizResponse :=
  let quizId := params_quizId req in
  qtry
    (qbind (Quiz_get quizId) (fun quiz =>
     match quiz with
     | None => answer 404 "Quiz not found" NoQuizData
     | Some quiz => answer 200 "Quiz retrieved successfully" (QuizData quiz)
     end))
    (fun error => answer 500 "Error retrieving quiz" (QuizErrorData error)).

Definition deleteQuiz (req : QuizRequest) : QM QuizResponse :=
  let quizId := params_quizId req in
  let userId := caller req in
  qtry
    (qbind (Quiz_get quizId) (fun quiz =>
     match quiz with
     | None => answer 404 "Quiz not found" NoQuizData
     | Some quiz =>
         qbind (Course_get (quiz_courseId quiz)) (fun course =>
         match course with
         | None => answer 404 "Course not found" NoQuizData
         | Some course =>
             if notTeacher course userId
             then answer 403 "Not authorized to delete this quiz" NoQuizData
             else
               qbind (Quiz_delete quizId) (fun _ =>
               answer 200 "Quiz deleted successfully" (QuizData quiz))
         end)
     end))
    (fun error => answer 500 "Error deleting quiz" (QuizErrorData error)).

(** [quiz.questions.findIndex((q) => q.questionId === questionId)];
    [None] stands for [-1]. *)
Definition findIndex (questionId' : string) (l : list Question)
  : option (nat * Question) :=
  list_find (fun q => questionId q = questionId') l.

Definition deleteQuestion (req : QuizRequest) : QM QuizResponse :=
  let quizId := params_quizId req in
  let questionId := params_questionId req in
  let userId := caller req in
  qtry
    (qbind (Quiz_get quizId) (fun quiz =>
     match quiz with
     | None => answer 404 "Quiz not found" NoQuizData
     | Some quiz =>
         qbind (Course_get (quiz_courseId quiz)) (fun course =>
         match course with
         | None => answer 404 "Course not found" NoQuizData
         | Some course =>
             if notTeacher course userId
             then answer 403 "Not authorized to modify this quiz" NoQuizData
             else
               match questions quiz with
               | None => answer 404 "Question not found" NoQuizData
               | Some all =>
                   match findIndex questionId all with
                   | None => answer 404 "Question not found" NoQuizData
                   | Some (questionIndex, deletedQuestion) =>
                       qbind (Quiz_save (withoutQuestion quiz questionIndex))
                         (fun _ =>
                       answer 200 "Question deleted successfully"
                              (QuestionData deletedQuestion))
                   end
               end
         end)
     end))
    (fun error => answer 500 "Error deleting question" (QuizErrorData error)).

End QuizController.

(** ** Vocabulary of the specification *)

(** The caller's verified identity. *)
Definition verifiedIdentity (req : Request) : option string :=
  a ← getAuth req; auth_userId a.

(** No call of the store throws. *)
Definition storeReliable (w : World) : Prop := ∀ n, faulty w n = false.

(** The three kinds of event, the log each kind goes to, and the route that
    records it. *)
Inductive EventKind := LessonAccessEvent | QuizAttemptEvent | DiscussionEvent.

Inductive Event :=
| LessonAccessed (e : LessonAccess)
| QuizAttempted (e : QuizAttempt)
| DiscussionPosted (e : DiscussionActivity).

Definition eventLog (kind : EventKind) (progress : StudentProgress)
  : list Event :=
  match kind with
  | LessonAccessEvent => LessonAccessed <$> lessonAccessHistory progress
  | QuizAttemptEvent => QuizAttempted <$> quizAttempts progress
  | DiscussionEvent => DiscussionPosted <$> discussionActivities progress
  end.

Definition eventTimestamp (e : Event) : string :=
  match e with
  | LessonAccessed e => accessTimestamp e
  | QuizAttempted e => attemptTimestamp e
  | DiscussionPosted e => da_timestamp e
  end.

Definition recorder (kind : EventKind) : Request → M Response :=
  match kind with
  | LessonAccessEvent => router PostLessonAccess
  | QuizAttemptEvent => router PostQuizAttempt
  | DiscussionEvent => router PostDiscussionActivity
  end.

(** What the recorder of a kind makes of a body at [currentTime]: the object
    literal that the handler pushes, by the handler's own [lessonAccessEntry],
    [quizAttemptEntry] or [discussionActivityEntry]; [None] when an attribute
    has a type that the record cannot hold. *)
Definition submittedEvent (kind : EventKind) (b : Body) (currentTime : string)
  : option Event :=
  match kind with
  | LessonAccessEvent =>
      LessonAccessed <$>
        lessonAccessEntry (field b "courseId") (field b "sectionId")
                          (field b "chapterId") currentTime
  | QuizAttemptEvent =>
      QuizAttempted <$>
        quizAttemptEntry (field b "quizId") (field b "courseId")
                         (field b "score") (field b "timeTaken")
                         (field b "completed") currentTime
  | DiscussionEvent =>
      DiscussionPosted <$>
        discussionActivityEntry (field b "courseId") (field b "sectionId")
                                (field b "chapterId") (field b "activityType")
                                (field b "commentId") currentTime
  end.

(** The field validation of each recorder. *)
Definition passesValidation (kind : EventKind) (b : Body) : bool :=
  match kind with
  | LessonAccessEvent =>
      negb (lessonAccessIncomplete (field b "courseId") (field b "sectionId")
                                   (field b "chapterId"))
  | QuizAttemptEvent =>
      negb (quizAttemptIncomplete (field b "quizId") (field b "courseId")
                                  (field b "score"))
  | DiscussionEvent =>
      negb (discussionActivityIncomplete (field b "courseId")
                                         (field b "activityType"))
      && includes validActivityTypes (field b "activityType")
  end.

(** *** Submissions

    A valid submission, in the terms of the data model (section 3 of the
    specification) and of the request bodies of the three POST routes: the
    attributes a client sends, each with the type the data model gives it.
    An optional attribute is sent or not.  Nothing here refers to the
    handlers. *)
Inductive Submission :=
| LessonSubmission (course section chapter : string)
| QuizSubmission (quiz course : string) (points : Q)
                 (duration : option Q) (finished : option bool)
| DiscussionSubmission (course : string) (section chapter : option string)
                       (activity : ActivityType) (comment : option string).

Definition kindOf (submission : Submission) : EventKind :=
  match submission with
  | LessonSubmission _ _ _ => LessonAccessEvent
  | QuizSubmission _ _ _ _ _ => QuizAttemptEvent
  | DiscussionSubmission _ _ _ _ _ => DiscussionEvent
  end.

(** The JSON value of an optional attribute: absent when it is not sent. *)
Definition sent {A} (json : A → JsValue) (attribute : option A) : JsValue :=
  match attribute with
  | Some a => json a
  | None => JUndefined
  end.

(** The body [b] carries the submission: each attribute of the submission is
    the field of its name, and an optional attribute that is not sent is an
    absent field.  The body may hold other fields. *)
Definition carries (b : Body) (submission : Submission) : Prop :=
  match submission with
  | LessonSubmission course section chapter =>
      field b "courseId" = JStr course
      ∧ field b "sectionId" = JStr section
      ∧ field b "chapterId" = JStr chapter
  | QuizSubmission quiz course points duration finished =>
      field b "quizId" = JStr quiz
      ∧ field b "courseId" = JStr course
      ∧ field b "score" = JNum points
      ∧ field b "timeTaken" = sent JNum duration
      ∧ field b "completed" = sent JBool finished
  | DiscussionSubmission course section chapter activity comment =>
      field b "courseId" = JStr course
      ∧ field b "sectionId" = sent JStr section
      ∧ field b "chapterId" = sent JStr chapter
      ∧ field b "activityType"
        = JStr (match activity with
                | Comment => "Comment"
                | Reply => "Reply"
                | Reaction => "Reaction"
                end)
      ∧ field b "commentId" = sent JStr comment
  end.

(** The identifiers that a kind requires are not empty.  (A score is required
    too, and a [QuizSubmission] has one; it may be [0].) *)
Definition complete (submission : Submission) : Prop :=
  match submission with
  | LessonSubmission course section chapter =>
      course ≠ "" ∧ section ≠ "" ∧ chapter ≠ ""
  | QuizSubmission quiz course _ _ _ => quiz ≠ "" ∧ course ≠ ""
  | DiscussionSubmission course _ _ _ _ => course ≠ ""
  end.

(** The event that a submission describes, once the server has stamped it
    with [instant]: the attributes as submitted, an optional attribute that
    was not sent being absent, except [completed], which is then [true]. *)
Definition eventOf (submission : Submission) (instant : string) : Event :=
  match submission with
  | LessonSubmission course section chapter =>
      LessonAccessed
        {| la_courseId := course; la_sectionId := section;
           la_chapterId := chapter; accessTimestamp := instant |}
  | QuizSubmission quiz course points duration finished =>
      QuizAttempted
        {| qa_quizId := quiz; qa_courseId := course;
           attemptTimestamp := instant; score := points;
           timeTaken := duration;
           completed := match finished with
                        | Some flag => flag
                        | None => true
                        end |}
  | DiscussionSubmission course section chapter activity comment =>
      DiscussionPosted
        {| da_courseId := course; da_sectionId := section;
           da_chapterId := chapter; activityType := activity;
           commentId := comment; da_timestamp := instant |}
  end.

(** The record stored for [key], in a store that files each record under its
    own [userId]. *)
Definition stored (w : World) (key : string) (progress : StudentProgress)
  : Prop :=
  db w !! key = Some progress ∧ userId progress = key.

(** Every record of the store is filed under its own [userId]. *)
Definition filed (records : gmap string StudentProgress) : Prop :=
  ∀ key progress, records !! key = Some progress → userId progress = key.

(** *** Statistics *)

(** The arithmetic mean of a sequence of numbers that is not empty. *)
Definition arithmeticMean (values : list Q) : Q :=
  (foldr Qplus 0 values / inject_Z (Z.of_nat (length values)))%Q.

(** The rational that a Number is; an infinity or a NaN is none. *)
Definition numberValue (x : spec_float) : option Q :=
  match x with
  | S754_zero _ => Some 0%Q
  | S754_finite negative m e =>
      Some ((if negative then -1 else 1) * inject_Z (Z.pos m) * 2 ^ e)%Q
  | S754_infinity _ | S754_nan => None
  end.

(** The Number [x] is the rational [q], with no rounding between them. *)
Definition isExactly (x : spec_float) (q : Q) : Prop :=
  match numberValue x with
  | Some v => (v == q)%Q
  | None => False
  end.

(** The arithmetic mean as the arithmetic of Numbers gives it: the values
    are added to [0] one after the other, in their order, each sum being
    rounded, and the last sum is divided by the number of values, the
    quotient being rounded. *)
Definition roundedMean (values : list Q) : spec_float :=
  Number_div
    (fold_left Number_add (toNumber <$> values) (S754_zero false))
    (toNumber (inject_Z (Z.of_nat (length values)))).

(** The sum of a sequence of integers. *)
Definition total (points : list Z) : Z := foldr Z.add 0%Z points.

(** The whole number [z], from [0] to [2^53 - 1], as a Number: a mantissa of
    53 binary digits and its exponent. *)
Definition wholeNumber (z : Z) : spec_float :=
  match z with
  | Zpos _ =>
      S754_finite false (Z.to_pos (z * 2 ^ (53 - Zdigits2 z)))
                  (Zdigits2 z - 53)
  | _ => S754_zero false
  end.

(** A lesson is the triple of its identifiers. *)
Definition lessonTriple (access : LessonAccess) : string * string * string :=
  (la_courseId access, la_sectionId access, la_chapterId access).

(** The number of distinct triples in a history. *)
Definition distinctLessons (history : list LessonAccess) : nat :=
  length (remove_dups (lessonTriple <$> history)).

(** Whether a string holds the separator of [lessonKey]. *)
Fixpoint hasColon (s : string) : bool :=
  match s with
  | EmptyString => false
  | String c rest => Ascii.eqb c ":" || hasColon rest
  end.

(** [a] stands at an earlier position of [l] than [b]. *)
Definition precedes {A} (l : list A) (a b : A) : Prop :=
  ∃ i j, l !! i = Some a ∧ l !! j = Some b ∧ i < j.

(** How often a key occurs in a sequence of keys. *)
Definition occurrences (k : string) (keys : list string) : nat :=
  length (filter (eq k) keys).

(** The first appearance of [x] comes before any appearance of [y]. *)
Definition appearsFirst (keys : list string) (x y : string) : Prop :=
  ∃ before after,
    keys = (before ++ x :: after)%list ∧ (y ∉ before) ∧ x ≠ y.

(** The body of the [forEach] loop, on the key of the item. *)
Definition countKey (frequency : JsObject) (value : string) : JsObject :=
  setProp frequency value (plusOne (getProp frequency value)).

(** The frequency object after the loop over items with these keys. *)
Definition tally (keys : list string) : JsObject :=
  fold_left countKey keys [].

(** The order in which the keys of the frequency object are enumerated: array
    indices first, in ascending numeric order, then the other keys by first
    appearance. *)
Definition enumeratedFirst (keys : list string) (x y : string) : Prop :=
  match arrayIndex x, arrayIndex y with
  | Some n, Some m => (n < m)%N
  | Some _, None => True
  | None, Some _ => False
  | None, None => appearsFirst keys x y
  end.

(** [x] ranks before [y]: it occurs more often, or as often and the tie goes
    to [x]. *)
Definition outranks (tie : list string → string → string → Prop)
    (keys : list string) (x y : string) : Prop :=
  occurrences y keys < occurrences x keys
  ∨ (occurrences x keys = occurrences y keys ∧ tie keys x y).

(** [full] lists every key of [keys] once, with the number of its
    occurrences, ranked by descending frequency with ties decided by
    [tie]. *)
Definition rankedByFrequency (tie : list string → string → string → Prop)
    (keys : list string) (full : list TopItem) : Prop :=
  NoDup (value <$> full)
  ∧ (∀ k, k ∈ value <$> full ↔ k ∈ keys)
  ∧ (∀ item, item ∈ full →
       count item = FCount (occurrences (value item) keys))
  ∧ (∀ i j a b, full !! i = Some a → full !! j = Some b → i < j →
       outranks tie keys (value a) (value b)).

(** [result] is the first [limit] entries of that ranking. *)
Definition topRanked (tie : list string → string → string → Prop)
    (limit : nat) (keys : list string) (result : list TopItem) : Prop :=
  ∃ full, rankedByFrequency tie keys full ∧ result = take limit full.

(** The [courseId] of each access, in the order of the history. *)
Definition accessedCourses (progress : StudentProgress) : list string :=
  la_courseId <$> lessonAccessHistory progress.

(** [([value, count]) => ({ value, count })] *)
Definition toTopItem (entry : string * FreqValue) : TopItem :=
  let '(value, count) := entry in mkTopItem value count.

(** The rank by which [byCountDescending] sorts counted keys. *)
Definition frequencyRank (keys : list string) (item : TopItem) : Z :=
  (- Z.of_nat (occurrences (value item) keys))%Z.

(** *** Histories of requests *)

(** [later] keeps the user and every event of [earlier], in the same
    order. *)
Definition extends (earlier later : StudentProgress) : Prop :=
  userId later = userId earlier
  ∧ lessonAccessHistory earlier `prefix_of` lessonAccessHistory later
  ∧ quizAttempts earlier `prefix_of` quizAttempts later
  ∧ discussionActivities earlier `prefix_of` discussionActivities later.

(** The world after a sequence of requests, served one after the other. *)
Definition serve (requests : list (Route * Request)) (w : World) : World :=
  fold_left (fun w request => (router request.1 request.2 w).2) requests w.

(** The status codes that the handler of a route can answer with. *)
Definition statusesOf (route : Route) : list nat :=
  match route with
  | GetProgress => [200; 403; 500]
  | PostLessonAccess | PostQuizAttempt | PostDiscussionActivity =>
      [200; 400; 403; 500]
  | GetStatistics => [200; 403; 404; 500]
  end.

(** The body passes the field validation of the route; the two reading
    routes have none. *)
Definition admitted (route : Route) (b : Body) : bool :=
  match route with
  | GetProgress | GetStatistics => true
  | PostLessonAccess => passesValidation LessonAccessEvent b
  | PostQuizAttempt => passesValidation QuizAttemptEvent b
  | PostDiscussionActivity => passesValidation DiscussionEvent b
  end.

(** The log of a kind that the store holds for a user, empty when the user
    has no record. *)
Definition storedLog (kind : EventKind) (w : World) (user : string)
  : list Event :=
  from_option (eventLog kind) [] (db w !! user).

(** What the frequency object holds for a key that occurs [n] times: nothing
    under [__proto__], a string that is no number under the name of another
    member of [Object.prototype], the number of occurrences otherwise. *)
Definition tallied (k : string) (n : nat) : option FreqValue :=
  if inherited k then
    if String.eqb k "__proto__" then None else Some FText
  else Some (FCount n).

(** ** Sample requests, records and worlds *)

(** A world for the examples: an empty store that never fails, and a clock
    that stands still. *)
Definition quietWorld : World :=
  mkWorld ∅ [] (fun _ => false) (fun _ => "2024-05-01T10:00:00.000Z") 0.

(** The auth object of a caller signed in as [user]. *)
Definition signedIn (user : string) : option AuthObject :=
  Some (mkAuthObject (Some user)).

Definition foreignRequest : Request :=
  mkRequest "alice" (signedIn "mallory") ∅.

Definition invalidActivityRequest : Request :=
  mkRequest "alice" (signedIn "alice")
    (<["courseId" := JStr "c-1"]> (<["activityType" := JStr "Invalid"]> ∅)).

Definition aliceProgress : StudentProgress :=
  mkStudentProgress "alice"
    [mkLessonAccess "c-1" "s-1" "ch-1" "2024-04-30T09:00:00.000Z"] [] []
    "2024-04-30T09:00:00.000Z".

Definition aliceWorld : World :=
  mkWorld (<["alice" := aliceProgress]> ∅) [] (fun _ => false)
          (fun _ => "2024-05-01T10:00:00.000Z") 0.

Definition aliceRequest (b : Body) : Request :=
  mkRequest "alice" (signedIn "alice") b.

Definition lessonBody : Body :=
  <["courseId" := JStr "c-1"]>
    (<["sectionId" := JStr "s-2"]> (<["chapterId" := JStr "ch-3"]> ∅)).

Definition lessonEvent : Event :=
  LessonAccessed
    (mkLessonAccess "c-1" "s-2" "ch-3" "2024-05-01T10:00:00.000Z").

Definition quizBody : Body :=
  <["quizId" := JStr "q-7"]>
    (<["courseId" := JStr "c-1"]> (<["score" := JNum 0]> ∅)).

(** A quiz attempt that was timed and abandoned, and a reply in a section. *)
Definition timedQuizBody : Body :=
  <["quizId" := JStr "q-8"]>
    (<["courseId" := JStr "c-1"]>
       (<["score" := JNum (85 # 2)]>
          (<["timeTaken" := JNum 300]> (<["completed" := JBool false]> ∅)))).

Definition replyBody : Body :=
  <["courseId" := JStr "c-1"]>
    (<["sectionId" := JStr "s-2"]>
       (<["activityType" := JStr "Reply"]>
          (<["commentId" := JStr "cm-4"]> ∅))).

Definition reactionBody : Body :=
  <["courseId" := JStr "c-2"]> (<["activityType" := JStr "Reaction"]> ∅).

Definition threeAttempts : StudentProgress :=
  mkStudentProgress "alice" []
    [ mkQuizAttempt "q-1" "c-1" "2024-05-01T10:00:00.000Z" 80 None true;
      mkQuizAttempt "q-2" "c-1" "2024-05-02T10:00:00.000Z" 90 (Some 12%Q) true;
      mkQuizAttempt "q-1" "c-1" "2024-05-03T10:00:00.000Z" 100 None false ]
    [] "2024-05-03T10:00:00.000Z".

(** Scores whose mean is not a Number, and three times the same score, the
    Number nearest to 99.9. *)
Definition thirdsProgress : StudentProgress :=
  mkStudentProgress "alice" []
    [ mkQuizAttempt "q-1" "c-1" "2024-05-01T10:00:00.000Z" 1 None true;
      mkQuizAttempt "q-2" "c-1" "2024-05-02T10:00:00.000Z" 1 None true;
      mkQuizAttempt "q-3" "c-1" "2024-05-03T10:00:00.000Z" 2 None true ]
    [] "2024-05-03T10:00:00.000Z".

Definition nearly100 : Q := 7029837543348634 # 70368744177664.

Definition repeatedProgress : StudentProgress :=
  mkStudentProgress "alice" []
    [ mkQuizAttempt "q-1" "c-1" "2024-05-01T10:00:00.000Z" nearly100 None true;
      mkQuizAttempt "q-2" "c-1" "2024-05-02T10:00:00.000Z" nearly100 None true;
      mkQuizAttempt "q-3" "c-1" "2024-05-03T10:00:00.000Z" nearly100 None
                    true ]
    [] "2024-05-03T10:00:00.000Z".

(** Two distinct lessons whose keys coincide. *)
Definition collidingProgress : StudentProgress :=
  mkStudentProgress "alice"
    [ mkLessonAccess "a:b" "c" "d" "2024-05-01T10:00:00.000Z";
      mkLessonAccess "a" "b:c" "d" "2024-05-02T10:00:00.000Z" ]
    [] [] "2024-05-02T10:00:00.000Z".

Definition revisitingProgress : StudentProgress :=
  mkStudentProgress "alice"
    [ mkLessonAccess "c-1" "s-1" "ch-1" "2024-05-01T10:00:00.000Z";
      mkLessonAccess "c-1" "s-1" "ch-1" "2024-05-02T10:00:00.000Z";
      mkLessonAccess "c-1" "s-1" "ch-2" "2024-05-03T10:00:00.000Z" ]
    [] [] "2024-05-03T10:00:00.000Z".

(** A history in which the course accessed first has the greater index. *)
Definition numberedProgress : StudentProgress :=
  mkStudentProgress "alice"
    [ mkLessonAccess "2" "s-1" "ch-1" "2024-05-01T10:00:00.000Z";
      mkLessonAccess "1" "s-1" "ch-1" "2024-05-02T10:00:00.000Z" ]
    [] [] "2024-05-02T10:00:00.000Z".

Definition alphabetProgress : StudentProgress :=
  mkStudentProgress "alice"
    [ mkLessonAccess "A" "s-1" "ch-1" "2024-05-01T10:00:00.000Z";
      mkLessonAccess "B" "s-1" "ch-1" "2024-05-01T11:00:00.000Z";
      mkLessonAccess "A" "s-1" "ch-2" "2024-05-01T12:00:00.000Z";
      mkLessonAccess "A" "s-2" "ch-1" "2024-05-01T13:00:00.000Z";
      mkLessonAccess "C" "s-1" "ch-1" "2024-05-01T14:00:00.000Z";
      mkLessonAccess "B" "s-1" "ch-2" "2024-05-01T15:00:00.000Z" ]
    [] [] "2024-05-01T15:00:00.000Z".

(** Two requests of one user: a lesson access, then the statistics. *)
Definition aliceSession : list (Route * Request) :=
  [ (PostLessonAccess, aliceRequest lessonBody);
    (GetStatistics, aliceRequest ∅) ].

Definition bobProgress : StudentProgress :=
  mkStudentProgress "bob" []
    [mkQuizAttempt "q-1" "c-1" "2024-04-29T08:00:00.000Z" 55 None true] []
    "2024-04-29T08:00:00.000Z".

(** A store with the records of two users. *)
Definition sharedWorld : World :=
  mkWorld (<["alice" := aliceProgress]> (<["bob" := bobProgress]> ∅)) []
          (fun _ => false) (fun _ => "2024-05-01T10:00:00.000Z") 0.

(** A store that throws at every call. *)
Definition brokenWorld : World :=
  mkWorld (<["alice" := aliceProgress]> ∅) [] (fun _ => true)
          (fun _ => "2024-05-01T10:00:00.000Z") 0.

(** A store whose second call throws: the record is read, then the write
    fails. *)
Definition readOnlyWorld : World :=
  mkWorld (<["alice" := aliceProgress]> ∅) []
          (fun n => bool_decide (n = 1))
          (fun _ => "2024-05-01T10:00:00.000Z") 0.

(** A clock that tells the readings apart. *)
Definition tickingWorld : World :=
  mkWorld (<["alice" := aliceProgress]> ∅) [] (fun _ => false)
          (fun n => if decide (n = 0) then "2024-05-01T10:00:00.000Z"
                    else "2024-05-01T10:00:05.000Z") 0.

Definition lessonEventLater : Event :=
  LessonAccessed
    (mkLessonAccess "c-1" "s-2" "ch-3" "2024-05-01T10:00:05.000Z").

(** A signer that answers for every key, and a request for a PDF. *)
Definition uploadEnv : UploadEnv :=
  mkUploadEnv "7b0c" (Some "bucket") (Some "https://cdn.example")
    (fun operation params => Some ("https://signed.example/" +:+ params.1.1.2))
    (fun _ => "[object Object]").

Definition pdfBody : Body :=
  <["fileName" := JStr "notes.pdf"]>
    (<["fileType" := JStr "application/pdf"]> ∅).

(** A course of teacher [t-1] with a quiz of three questions, two of which
    carry the same identifier. *)
Definition sampleQuestion (identifier text : string) : Question :=
  mkQuestion identifier text "Essay" None None None.

Definition sampleQuiz : Quiz :=
  mkQuiz "quiz-1" "c-1" "Week 1" None None None None
    (Some [ sampleQuestion "a" "first"; sampleQuestion "b" "second";
            sampleQuestion "b" "third" ]).

Definition quizWorld : QuizWorld (Course := string) :=
  mkQuizWorld (<["quiz-1" := sampleQuiz]> ∅) (<["c-1" := "t-1"]> ∅) []
              (fun _ => false).

Definition teacherRequest : QuizRequest :=
  mkQuizRequest "quiz-1" "b" (Some "t-1").

Definition studentRequest : QuizRequest :=
  mkQuizRequest "quiz-1" "b" (Some "s-9").

(** * Properties *)

(** ** The access gate *)

Lemma accessDenied_false_iff (req : Request) :
  accessDenied (getAuth req) (params_userId req) = false
  ↔ verifiedIdentity req = Some (params_userId req).
Proof.
  unfold accessDenied, verifiedIdentity.
  destruct (getAuth req) as [a|]; simpl; [|split; discriminate].
  rewrite negb_false_iff, bool_decide_eq_true. reflexivity.
Qed.

Lemma accessDenied_true_iff (req : Request) :
  accessDenied (getAuth req) (params_userId req) = true
  ↔ verifiedIdentity req ≠ Some (params_userId req).
Proof.
  rewrite <- accessDenied_false_iff.
  destruct (accessDenied _ _); split; congruence.
Qed.

Ltac run_handler :=
  repeat (progress
            (cbv [try_catch bind save typed store_get store_save
                  currentInstant ret throw logCall]; simpl)).

(** Running a handler against a store that does not fail. *)
Ltac run_reliably Hok :=
  repeat (progress (run_handler; rewrite ?Hok; simpl)).

(** C6. On each of the five routes, a request whose verified identity is
    absent or is not the [userId] of the path is answered with status 403;
    the handler returns in the world it started in, so the store was neither
    read nor written and holds what it held. *)
Theorem mismatch_is_rejected_before_the_store
    (route : Route) (req : Request) (w : World) :
  verifiedIdentity req ≠ Some (params_userId req) →
  ∃ res w',
    router route req w = (Returned res, w')
    ∧ status res = 403
    ∧ trace w' = trace w
    ∧ db w' = db w.
Proof.
  intros Hid. apply accessDenied_true_iff in Hid.
  exists denied, w.
  destruct route; simpl;
    unfold getStudentProgress, recordLessonAccess, recordQuizAttempt,
      recordDiscussionActivity, getStudentStatistics;
    rewrite Hid; auto.
Qed.

Lemma mismatch_is_rejected_before_the_store_witness :
  verifiedIdentity foreignRequest ≠ Some (params_userId foreignRequest)
  ∧ ∃ res w',
      router PostQuizAttempt foreignRequest quietWorld = (Returned res, w')
      ∧ status res = 403
      ∧ trace w' = trace quietWorld
      ∧ db w' = db quietWorld.
Proof.
  split.
  - vm_compute. discriminate.
  - apply (mismatch_is_rejected_before_the_store
             PostQuizAttempt foreignRequest quietWorld).
    vm_compute. discriminate.
Defined.

(** ** Validation of a discussion activity *)

Lemma includes_validActivityTypes (v : JsValue) :
  includes validActivityTypes v = true
  ↔ v ∈ [JStr "Comment"; JStr "Reply"; JStr "Reaction"].
Proof.
  rewrite !elem_of_cons, elem_of_nil.
  destruct v as [| |b|q|s|l|l]; simpl;
    try (split; [discriminate | intros [?|[?|[?|[]]]]; discriminate]).
  rewrite !orb_true_iff, !String.eqb_eq. split.
  - intros [->|[->|[->|?]]]; auto; discriminate.
  - intros [?|[?|[?|[]]]]; simplify_eq; auto.
Qed.

(** C7. A discussion-activity submission by an authorized caller whose
    [activityType] is not one of Comment, Reply, Reaction is answered with
    status 400; the handler returns in the world it started in, so no call
    of the store was made and the stored records are the same. *)
Theorem invalid_activityType_is_rejected (req : Request) (w : World) :
  verifiedIdentity req = Some (params_userId req) →
  field (body req) "activityType"
    ∉ [JStr "Comment"; JStr "Reply"; JStr "Reaction"] →
  ∃ res w',
    recordDiscussionActivity req w = (Returned res, w')
    ∧ status res = 400
    ∧ trace w' = trace w
    ∧ db w' = db w.
Proof.
  intros Hid Hty. apply accessDenied_false_iff in Hid.
  rewrite <- includes_validActivityTypes in Hty.
  apply not_true_is_false in Hty.
  unfold recordDiscussionActivity. rewrite Hid, Hty. simpl.
  destruct (discussionActivityIncomplete _ _); eauto 10.
Qed.

Lemma invalid_activityType_is_rejected_witness :
  ∃ res w',
    recordDiscussionActivity invalidActivityRequest aliceWorld
    = (Returned res, w')
    ∧ status res = 400
    ∧ trace w' = trace aliceWorld
    ∧ db w' = db aliceWorld.
Proof.
  apply (invalid_activityType_is_rejected invalidActivityRequest aliceWorld).
  - reflexivity.
  - rewrite !elem_of_cons, elem_of_nil.
    intros [H|[H|[H|[]]]]; vm_compute in H; discriminate.
Defined.

(** ** Reading: statistics and the progress record *)

(** C8. A statistics request by an authorized caller, when the store does not
    fail, is answered 404 exactly when there is no record for the user, and
    200 with the statistics of the record when there is one; either way the
    stored records are unchanged. *)
Theorem statistics_found_or_404 (req : Request) (w : World) :
  verifiedIdentity req = Some (params_userId req) →
  storeReliable w →
  ∃ res w',
    getStudentStatistics req w = (Returned res, w')
    ∧ db w' = db w
    ∧ (status res = 404 ↔ db w !! params_userId req = None)
    ∧ (∀ progress,
         db w !! params_userId req = Some progress →
         status res = 200 ∧ data res = StatsData (computeStatistics progress)).
Proof.
  intros Hid Hok. apply accessDenied_false_iff in Hid.
  unfold getStudentStatistics. rewrite Hid. run_reliably Hok.
  destruct (db w !! params_userId req) as [p|] eqn:Hp; simpl.
  - eexists _, _. split; [reflexivity|]. simpl.
    repeat split; try discriminate; intros; simplify_eq; reflexivity.
  - eexists _, _. split; [reflexivity|]. simpl.
    repeat split; try discriminate.
Qed.

Lemma statistics_found_or_404_witness :
  ∃ res w',
    getStudentStatistics (aliceRequest ∅) aliceWorld = (Returned res, w')
    ∧ db w' = db aliceWorld
    ∧ (status res = 404 ↔ db aliceWorld !! "alice" = None)
    ∧ (∀ progress,
         db aliceWorld !! "alice" = Some progress →
         status res = 200 ∧ data res = StatsData (computeStatistics progress)).
Proof.
  apply (statistics_found_or_404 (aliceRequest ∅) aliceWorld).
  - reflexivity.
  - intros n. reflexivity.
Defined.

(** C9. Reading the progress of a user who has no record, by an authorized
    caller and with a store that does not fail, creates the record: it holds
    the [userId] of the path, three empty logs and the current instant as
    [lastActive]; it is saved under that [userId] and returned with status
    200.  A record can therefore exist without any recorded event. *)
Theorem progress_is_created_on_first_read (req : Request) (w : World) :
  verifiedIdentity req = Some (params_userId req) →
  storeReliable w →
  db w !! params_userId req = None →
  let fresh :=
    mkStudentProgress (params_userId req) [] [] []
                      (instants w (readings w)) in
  ∃ res w',
    getStudentProgress req w = (Returned res, w')
    ∧ status res = 200
    ∧ data res = ProgressData fresh
    ∧ db w' = <[params_userId req := fresh]> (db w)
    ∧ db w' !! params_userId req = Some fresh
    ∧ trace w' = (trace w ++ [CallGet (params_userId req); CallSave fresh])%list.
Proof.
  intros Hid Hok Hnone fresh. apply accessDenied_false_iff in Hid.
  unfold getStudentProgress. rewrite Hid. run_reliably Hok.
  rewrite Hnone. run_reliably Hok.
  eexists _, _. split; [reflexivity|]. simpl.
  rewrite lookup_insert_eq, <- app_assoc. auto.
Qed.

Lemma progress_is_created_on_first_read_witness :
  ∃ res w',
    getStudentProgress (aliceRequest ∅) quietWorld = (Returned res, w')
    ∧ status res = 200
    ∧ data res
      = ProgressData
          (mkStudentProgress "alice" [] [] [] "2024-05-01T10:00:00.000Z")
    ∧ db w'
      = <["alice" :=
            mkStudentProgress "alice" [] [] [] "2024-05-01T10:00:00.000Z"]>
          (db quietWorld)
    ∧ db w' !! "alice"
      = Some (mkStudentProgress "alice" [] [] [] "2024-05-01T10:00:00.000Z")
    ∧ trace w'
      = (trace quietWorld
         ++ [CallGet "alice";
             CallSave (mkStudentProgress "alice" [] [] []
                         "2024-05-01T10:00:00.000Z")])%list.
Proof.
  apply (progress_is_created_on_first_read (aliceRequest ∅) quietWorld).
  - reflexivity.
  - intros n. reflexivity.
  - reflexivity.
Defined.

(** ** The store files each record under its own userId *)

Lemma router_writes_at_most_one_record
    (route : Route) (req : Request) (w : World) :
  db (router route req w).2 = db w
  ∨ ∃ progress,
      db (router route req w).2 = <[userId progress := progress]> (db w).
Proof.
  destruct route; simpl;
    unfold getStudentProgress, recordLessonAccess, recordQuizAttempt,
      recordDiscussionActivity, getStudentStatistics;
    repeat (run_handler; try case_match; simplify_eq/=); eauto;
    right; eexists (mkStudentProgress _ _ _ _ _); reflexivity.
Qed.

Lemma router_keeps_filing (route : Route) (req : Request) (w : World) :
  filed (db w) → filed (db (router route req w).2).
Proof.
  intros Hfiled.
  destruct (router_writes_at_most_one_record route req w) as [->|[p ->]];
    [done|].
  intros k q. rewrite lookup_insert. case_decide; [|by apply Hfiled].
  by intros [= <-].
Qed.

(** A request that is not answered 200 leaves the stored records as they
    were: a failure is reported without a partial write. *)
Lemma router_failure_leaves_the_store
    (route : Route) (req : Request) (w : World) (res : Response) (w' : World) :
  router route req w = (Returned res, w') →
  status res ≠ 200 →
  db w' = db w.
Proof.
  destruct route; simpl;
    unfold getStudentProgress, recordLessonAccess, recordQuizAttempt,
      recordDiscussionActivity, getStudentStatistics;
    repeat (run_handler; try case_match; simplify_eq/=);
    intros; simplify_eq/=; done.
Qed.

(** ** Recording events *)

(** What a recorder does with a submission that passes validation and fits
    the record, when the store does not fail: one reading of the store, one
    reading of the clock, one write of the whole record. *)
Lemma recorder_appends
    (kind : EventKind) (req : Request) (w : World) (e : Event) :
  verifiedIdentity req = Some (params_userId req) →
  storeReliable w →
  passesValidation kind (body req) = true →
  submittedEvent kind (body req) (instants w (readings w)) = Some e →
  ∃ res w' progress',
    recorder kind req w = (Returned res, w')
    ∧ status res = 200
    ∧ data res = ProgressData progress'
    ∧ db w' = <[userId progress' := progress']> (db w)
    ∧ trace w'
      = (trace w ++ [CallGet (params_userId req); CallSave progress'])%list
    ∧ readings w' = S (readings w)
    ∧ lastActive progress' = instants w (readings w)
    ∧ match db w !! params_userId req with
      | None =>
          userId progress' = params_userId req
          ∧ eventLog kind progress' = [e]
          ∧ ∀ other, other ≠ kind → eventLog other progress' = []
      | Some progress =>
          userId progress' = userId progress
          ∧ eventLog kind progress' = (eventLog kind progress ++ [e])%list
          ∧ ∀ other, other ≠ kind →
              eventLog other progress' = eventLog other progress
      end.
Proof.
  intros Hid Hok Hval Hsub. apply accessDenied_false_iff in Hid.
  destruct kind; simpl in *;
    unfold recordLessonAccess, recordQuizAttempt, recordDiscussionActivity;
    rewrite Hid.
  - apply negb_true_iff in Hval. rewrite Hval.
    destruct (lessonAccessEntry _ _ _ _) as [la|] eqn:Hla; simplify_eq/=.
    run_reliably Hok. rewrite Hla.
    destruct (db w !! params_userId req) as [p|]; run_reliably Hok;
      eexists _, _, _; (split; [reflexivity|]);
      unfold pushLessonAccess, pushQuizAttempt, pushDiscussionActivity; simpl;
      rewrite <- app_assoc; repeat split; auto;
      try (by intros [] ?); simpl; by rewrite fmap_app.
  - apply negb_true_iff in Hval. rewrite Hval.
    destruct (quizAttemptEntry _ _ _ _ _ _) as [qa|] eqn:Hqa; simplify_eq/=.
    run_reliably Hok. rewrite Hqa.
    destruct (db w !! params_userId req) as [p|]; run_reliably Hok;
      eexists _, _, _; (split; [reflexivity|]);
      unfold pushLessonAccess, pushQuizAttempt, pushDiscussionActivity; simpl;
      rewrite <- app_assoc; repeat split; auto;
      try (by intros [] ?); simpl; by rewrite fmap_app.
  - apply andb_true_iff in Hval as [Hval Hinc].
    apply negb_true_iff in Hval. rewrite Hval, Hinc. simpl.
    destruct (discussionActivityEntry _ _ _ _ _ _) as [da|] eqn:Hda;
      simplify_eq/=.
    run_reliably Hok. rewrite Hda.
    destruct (db w !! params_userId req) as [p|]; run_reliably Hok;
      eexists _, _, _; (split; [reflexivity|]);
      unfold pushLessonAccess, pushQuizAttempt, pushDiscussionActivity; simpl;
      rewrite <- app_assoc; repeat split; auto;
      try (by intros [] ?); simpl; by rewrite fmap_app.
Qed.

Lemma submittedEvent_timestamp
    (kind : EventKind) (b : Body) (currentTime : string) (e : Event) :
  submittedEvent kind b currentTime = Some e →
  eventTimestamp e = currentTime.
Proof.
  destruct kind; simpl;
    unfold lessonAccessEntry, quizAttemptEntry, discussionActivityEntry;
    intros H; repeat (simplify_option_eq; try case_match); reflexivity.
Qed.

Lemma truthy_JStr (text : string) : text ≠ "" → truthy (JStr text) = true.
Proof.
  intros Hne. simpl. apply negb_true_iff, String.eqb_neq, Hne.
Qed.

(** A body that carries a complete submission passes the validation of its
    recorder, and the object that the recorder pushes is the event that the
    submission describes. *)
Lemma submission_is_accepted
    (submission : Submission) (b : Body) (instant : string) :
  carries b submission →
  complete submission →
  passesValidation (kindOf submission) b = true
  ∧ submittedEvent (kindOf submission) b instant
    = Some (eventOf submission instant).
Proof.
  destruct submission as [c sec ch|q c sc t fin|c sec ch ty cm]; simpl.
  - intros (-> & -> & ->) (Hc & Hsec & Hch).
    unfold lessonAccessIncomplete.
    rewrite !truthy_JStr by done. done.
  - intros (-> & -> & -> & -> & ->) (Hq & Hc).
    unfold quizAttemptIncomplete.
    rewrite !truthy_JStr by done.
    by destruct t, fin.
  - intros (-> & -> & -> & -> & ->) Hc.
    unfold discussionActivityIncomplete.
    rewrite truthy_JStr by done.
    by destruct ty, sec, ch, cm.
Qed.

(** C1. A valid submission of any of the three kinds, by an authorized
    caller, for a user who has a record, and with a store that does not fail:
    the record stored afterwards has a target log one longer than before,
    equal to the old log followed by the submitted event, and its two other
    logs are as before.  The submitted event has the attributes of the
    submission (an attribute that was not sent is absent, [completed] is then
    [true]) and carries the instant read from the clock, which is read once
    in the request and is also the new [lastActive]. *)
Theorem event_is_appended
    (submission : Submission) (req : Request) (w : World)
    (progress : StudentProgress) :
  verifiedIdentity req = Some (params_userId req) →
  storeReliable w →
  stored w (params_userId req) progress →
  carries (body req) submission →
  complete submission →
  ∃ res w' progress',
    recorder (kindOf submission) req w = (Returned res, w')
    ∧ status res = 200
    ∧ stored w' (params_userId req) progress'
    ∧ length (eventLog (kindOf submission) progress')
      = S (length (eventLog (kindOf submission) progress))
    ∧ last (eventLog (kindOf submission) progress')
      = Some (eventOf submission (instants w (readings w)))
    ∧ eventLog (kindOf submission) progress'
      = (eventLog (kindOf submission) progress
         ++ [eventOf submission (instants w (readings w))])%list
    ∧ (∀ other, other ≠ kindOf submission →
         eventLog other progress' = eventLog other progress)
    ∧ eventTimestamp (eventOf submission (instants w (readings w)))
      = instants w (readings w)
    ∧ lastActive progress' = instants w (readings w)
    ∧ readings w' = S (readings w).
Proof.
  intros Hid Hok [Hdb Hkey] Hbody Hcomplete.
  destruct (submission_is_accepted submission (body req)
              (instants w (readings w)) Hbody Hcomplete) as [Hval Hsub].
  destruct (recorder_appends _ req w _ Hid Hok Hval Hsub)
    as (res & w' & p' & Hrun & Hst & _ & Hdb' & _ & Hclock & Hactive & Hlog).
  rewrite Hdb in Hlog. destruct Hlog as (Huid & Hlog & Hothers).
  exists res, w', p'. rewrite Hlog, length_app, last_snoc. simpl.
  repeat split; auto.
  - rewrite Hdb', Huid, Hkey. apply lookup_insert_eq.
  - congruence.
  - lia.
  - by destruct submission.
Qed.

Lemma event_is_appended_witness :
  (∃ res w' progress',
     recordLessonAccess (aliceRequest lessonBody) aliceWorld
     = (Returned res, w')
     ∧ status res = 200
     ∧ stored w' "alice" progress'
     ∧ length (eventLog LessonAccessEvent progress') = 2
     ∧ last (eventLog LessonAccessEvent progress')
       = Some (LessonAccessed
                 (mkLessonAccess "c-1" "s-2" "ch-3"
                                 "2024-05-01T10:00:00.000Z"))
     ∧ eventLog LessonAccessEvent progress'
       = (eventLog LessonAccessEvent aliceProgress
          ++ [LessonAccessed
                (mkLessonAccess "c-1" "s-2" "ch-3"
                                "2024-05-01T10:00:00.000Z")])%list
     ∧ (∀ other, other ≠ LessonAccessEvent →
          eventLog other progress' = eventLog other aliceProgress)
     ∧ "2024-05-01T10:00:00.000Z" = "2024-05-01T10:00:00.000Z"
     ∧ lastActive progress' = "2024-05-01T10:00:00.000Z"
     ∧ readings w' = 1)
  ∧ (∃ res w' progress',
       recordQuizAttempt (aliceRequest timedQuizBody) aliceWorld
       = (Returned res, w')
       ∧ status res = 200
       ∧ stored w' "alice" progress'
       ∧ length (eventLog QuizAttemptEvent progress') = 1
       ∧ last (eventLog QuizAttemptEvent progress')
         = Some (QuizAttempted
                   (mkQuizAttempt "q-8" "c-1" "2024-05-01T10:00:00.000Z"
                                  (85 # 2) (Some 300%Q) false))
       ∧ eventLog QuizAttemptEvent progress'
         = (eventLog QuizAttemptEvent aliceProgress
            ++ [QuizAttempted
                  (mkQuizAttempt "q-8" "c-1" "2024-05-01T10:00:00.000Z"
                                 (85 # 2) (Some 300%Q) false)])%list
       ∧ (∀ other, other ≠ QuizAttemptEvent →
            eventLog other progress' = eventLog other aliceProgress)
       ∧ "2024-05-01T10:00:00.000Z" = "2024-05-01T10:00:00.000Z"
       ∧ lastActive progress' = "2024-05-01T10:00:00.000Z"
       ∧ readings w' = 1)
  ∧ (∃ res w' progress',
       recordDiscussionActivity (aliceRequest replyBody) aliceWorld
       = (Returned res, w')
       ∧ status res = 200
       ∧ stored w' "alice" progress'
       ∧ length (eventLog DiscussionEvent progress') = 1
       ∧ last (eventLog DiscussionEvent progress')
         = Some (DiscussionPosted
                   (mkDiscussionActivity "c-1" (Some "s-2") None Reply
                      (Some "cm-4") "2024-05-01T10:00:00.000Z"))
       ∧ eventLog DiscussionEvent progress'
         = (eventLog DiscussionEvent aliceProgress
            ++ [DiscussionPosted
                  (mkDiscussionActivity "c-1" (Some "s-2") None Reply
                     (Some "cm-4") "2024-05-01T10:00:00.000Z")])%list
       ∧ (∀ other, other ≠ DiscussionEvent →
            eventLog other progress' = eventLog other aliceProgress)
       ∧ "2024-05-01T10:00:00.000Z" = "2024-05-01T10:00:00.000Z"
       ∧ lastActive progress' = "2024-05-01T10:00:00.000Z"
       ∧ readings w' = 1).
Proof.
  split; [|split].
  - apply (event_is_appended (LessonSubmission "c-1" "s-2" "ch-3")
             (aliceRequest lessonBody) aliceWorld aliceProgress).
    + reflexivity.
    + intros n. reflexivity.
    + split; reflexivity.
    + repeat split.
    + repeat split; discriminate.
  - apply (event_is_appended
             (QuizSubmission "q-8" "c-1" (85 # 2) (Some 300%Q) (Some false))
             (aliceRequest timedQuizBody) aliceWorld aliceProgress).
    + reflexivity.
    + intros n. reflexivity.
    + split; reflexivity.
    + repeat split.
    + repeat split; discriminate.
  - apply (event_is_appended
             (DiscussionSubmission "c-1" (Some "s-2") None Reply
                                   (Some "cm-4"))
             (aliceRequest replyBody) aliceWorld aliceProgress).
    + reflexivity.
    + intros n. reflexivity.
    + split; reflexivity.
    + repeat split.
    + discriminate.
Defined.

(** C4. A valid first submission of any of the three kinds for a user who has
    no record, by an authorized caller and with a store that does not fail,
    creates and stores a record whose target log holds exactly the submitted
    event (the attributes of the submission, stamped with the instant of the
    request), whose two other logs are empty, and whose [lastActive] is the
    timestamp of that event. *)
Theorem first_event_creates_the_record
    (submission : Submission) (req : Request) (w : World) :
  verifiedIdentity req = Some (params_userId req) →
  storeReliable w →
  db w !! params_userId req = None →
  carries (body req) submission →
  complete submission →
  ∃ res w' progress',
    recorder (kindOf submission) req w = (Returned res, w')
    ∧ status res = 200
    ∧ stored w' (params_userId req) progress'
    ∧ eventLog (kindOf submission) progress'
      = [eventOf submission (instants w (readings w))]
    ∧ (∀ other, other ≠ kindOf submission → eventLog other progress' = [])
    ∧ lastActive progress'
      = eventTimestamp (eventOf submission (instants w (readings w)))
    ∧ (∀ key, key ≠ params_userId req → db w' !! key = db w !! key).
Proof.
  intros Hid Hok Hdb Hbody Hcomplete.
  destruct (submission_is_accepted submission (body req)
              (instants w (readings w)) Hbody Hcomplete) as [Hval Hsub].
  destruct (recorder_appends _ req w _ Hid Hok Hval Hsub)
    as (res & w' & p' & Hrun & Hst & _ & Hdb' & _ & _ & Hactive & Hlog).
  rewrite Hdb in Hlog. destruct Hlog as (Huid & Hlog & Hothers).
  exists res, w', p'. repeat split; auto.
  - rewrite Hdb', Huid. apply lookup_insert_eq.
  - rewrite Hactive. by destruct submission.
  - intros key Hne. rewrite Hdb', Huid. by apply lookup_insert_ne.
Qed.

Lemma first_event_creates_the_record_witness :
  (∃ res w' progress',
     recordLessonAccess (aliceRequest lessonBody) quietWorld
     = (Returned res, w')
     ∧ status res = 200
     ∧ stored w' "alice" progress'
     ∧ eventLog LessonAccessEvent progress'
       = [LessonAccessed
            (mkLessonAccess "c-1" "s-2" "ch-3" "2024-05-01T10:00:00.000Z")]
     ∧ (∀ other, other ≠ LessonAccessEvent → eventLog other progress' = [])
     ∧ lastActive progress' = "2024-05-01T10:00:00.000Z"
     ∧ (∀ key, key ≠ "alice" → db w' !! key = db quietWorld !! key))
  ∧ (∃ res w' progress',
       recordQuizAttempt (aliceRequest quizBody) quietWorld
       = (Returned res, w')
       ∧ status res = 200
       ∧ stored w' "alice" progress'
       ∧ eventLog QuizAttemptEvent progress'
         = [QuizAttempted
              (mkQuizAttempt "q-7" "c-1" "2024-05-01T10:00:00.000Z" 0 None
                             true)]
       ∧ (∀ other, other ≠ QuizAttemptEvent → eventLog other progress' = [])
       ∧ lastActive progress' = "2024-05-01T10:00:00.000Z"
       ∧ (∀ key, key ≠ "alice" → db w' !! key = db quietWorld !! key))
  ∧ (∃ res w' progress',
       recordDiscussionActivity (aliceRequest reactionBody) quietWorld
       = (Returned res, w')
       ∧ status res = 200
       ∧ stored w' "alice" progress'
       ∧ eventLog DiscussionEvent progress'
         = [DiscussionPosted
              (mkDiscussionActivity "c-2" None None Reaction None
                                    "2024-05-01T10:00:00.000Z")]
       ∧ (∀ other, other ≠ DiscussionEvent → eventLog other progress' = [])
       ∧ lastActive progress' = "2024-05-01T10:00:00.000Z"
       ∧ (∀ key, key ≠ "alice" → db w' !! key = db quietWorld !! key)).
Proof.
  split; [|split].
  - apply (first_event_creates_the_record
             (LessonSubmission "c-1" "s-2" "ch-3")
             (aliceRequest lessonBody) quietWorld).
    + reflexivity.
    + intros n. reflexivity.
    + reflexivity.
    + repeat split.
    + repeat split; discriminate.
  - apply (first_event_creates_the_record
             (QuizSubmission "q-7" "c-1" 0 None None)
             (aliceRequest quizBody) quietWorld).
    + reflexivity.
    + intros n. reflexivity.
    + reflexivity.
    + repeat split.
    + repeat split; discriminate.
  - apply (first_event_creates_the_record
             (DiscussionSubmission "c-2" None None Reaction None)
             (aliceRequest reactionBody) quietWorld).
    + reflexivity.
    + intros n. reflexivity.
    + reflexivity.
    + repeat split.
    + discriminate.
Defined.

(** ** Validation of a quiz attempt *)





(** ** Statistics: the average quiz score *)

(** *** Whole numbers in binary64

    Sums and quotients of whole numbers below [2^53]: a sum below [2^53] is
    not rounded, and a quotient is rounded once. *)

Section Binary64.
Local Open Scope Z_scope.

Lemma digits2_pos_size (p : positive) : digits2_pos p = Pos.size p.
Proof. induction p; simpl; congruence. Qed.

Lemma Zdigits2_log2 (z : Z) : 0 < z → Zdigits2 z = Z.log2 z + 1.
Proof.
  destruct z as [|p|p]; try lia. intros _. simpl.
  rewrite digits2_pos_size. destruct p; simpl; lia.
Qed.

Lemma Zdigits2_bounds (z : Z) :
  0 < z → 2 ^ (Zdigits2 z - 1) ≤ z < 2 ^ Zdigits2 z.
Proof.
  intros Hz. rewrite Zdigits2_log2 by done.
  replace (Z.log2 z + 1 - 1) with (Z.log2 z) by lia.
  replace (Z.log2 z + 1) with (Z.succ (Z.log2 z)) by lia.
  by apply Z.log2_spec.
Qed.

Lemma Zdigits2_shift (z k : Z) :
  0 < z → 0 ≤ k → Zdigits2 (z * 2 ^ k) = Zdigits2 z + k.
Proof.
  intros Hz Hk. rewrite !Zdigits2_log2; [|done|].
  - rewrite Z.log2_mul_pow2 by lia. lia.
  - apply Z.mul_pos_pos; [done|]. by apply Z.pow_pos_nonneg.
Qed.

Lemma iter_pos_nat {A} (f : A → A) (n : positive) (x : A) :
  SpecFloat.iter_pos f n x = Nat.iter (Pos.to_nat n) f x.
Proof.
  revert x. induction n as [n IH|n IH|]; intros x;
    cbn [SpecFloat.iter_pos].
  - rewrite !IH, Pos2Nat.inj_xI.
    replace (S (2 * Pos.to_nat n))%nat
      with (Pos.to_nat n + S (Pos.to_nat n))%nat by lia.
    by rewrite Nat.iter_add, Nat.iter_succ_r.
  - rewrite !IH, Pos2Nat.inj_xO.
    replace (2 * Pos.to_nat n)%nat
      with (Pos.to_nat n + Pos.to_nat n)%nat by lia.
    by rewrite Nat.iter_add.
  - done.
Qed.

Lemma shr_1_even (z : Z) :
  0 ≤ z →
  shr_1 (Build_shr_record (2 * z) false false) = Build_shr_record z false false.
Proof. destruct z as [|p|p]; try lia; done. Qed.

Lemma shr_exact (z : Z) (n : nat) :
  0 ≤ z →
  Nat.iter n shr_1 (Build_shr_record (z * 2 ^ Z.of_nat n) false false)
  = Build_shr_record z false false.
Proof.
  intros Hz. induction n as [|n IH].
  - simpl. by rewrite Z.mul_1_r.
  - rewrite Nat.iter_succ_r.
    replace (z * 2 ^ Z.of_nat (S n)) with (2 * (z * 2 ^ Z.of_nat n)).
    + rewrite shr_1_even; [done|]. apply Z.mul_nonneg_nonneg; [done|].
      apply Z.pow_nonneg. lia.
    + rewrite Nat2Z.inj_succ, Z.pow_succ_r by lia. lia.
Qed.

Lemma fexp_normal (d : Z) : -1021 ≤ d → fexp 53 1024 d = d - 53.
Proof. unfold fexp, emin. lia. Qed.

Lemma shr_fexp_canonical (m e : Z) :
  Zdigits2 m = 53 → -1074 ≤ e →
  shr_fexp 53 1024 m e loc_Exact = (Build_shr_record m false false, e).
Proof.
  intros Hd He. unfold shr_fexp. rewrite Hd, fexp_normal by lia.
  replace (53 + e - 53 - e) with 0 by lia. done.
Qed.

Lemma shr_fexp_exact (z k : Z) :
  0 < z → 0 ≤ k → Zdigits2 z ≤ 53 → 53 ≤ Zdigits2 z + k →
  shr_fexp 53 1024 (z * 2 ^ k) (- k) loc_Exact
  = (Build_shr_record (z * 2 ^ (53 - Zdigits2 z)) false false,
     Zdigits2 z - 53).
Proof.
  intros Hz Hk Hd Hdk. unfold shr_fexp.
  pose proof (Zdigits2_bounds z Hz) as Hb.
  assert (Hd1 : 1 ≤ Zdigits2 z).
  { rewrite Zdigits2_log2 by done. pose proof (Z.log2_nonneg z). lia. }
  rewrite Zdigits2_shift by done. rewrite fexp_normal by lia.
  remember (Zdigits2 z + k + - k - 53 - - k) as n eqn:Hn.
  destruct n as [|n|n]; try lia.
  - simpl. replace (53 - Zdigits2 z) with k by lia.
    f_equal. lia.
  - simpl. rewrite iter_pos_nat.
    replace (z * 2 ^ k)
      with (z * 2 ^ (53 - Zdigits2 z) * 2 ^ Z.of_nat (Pos.to_nat n)).
    + rewrite shr_exact; [f_equal; lia|].
      apply Z.mul_nonneg_nonneg; [lia|]. apply Z.pow_nonneg. lia.
    + rewrite positive_nat_Z, <- Z.mul_assoc, <- Z.pow_add_r by lia.
      do 2 f_equal. lia.
Qed.

Lemma round_exact (z k : Z) :
  0 < z → 0 ≤ k → Zdigits2 z ≤ 53 → 53 ≤ Zdigits2 z + k →
  binary_round_aux 53 1024 false (z * 2 ^ k) (- k) loc_Exact = wholeNumber z.
Proof.
  intros Hz Hk Hd Hdk. unfold binary_round_aux.
  assert (Hd1 : 1 ≤ Zdigits2 z).
  { rewrite Zdigits2_log2 by done. pose proof (Z.log2_nonneg z). lia. }
  rewrite shr_fexp_exact by done. cbn [shr_m loc_of_shr_record round_nearest_even].
  rewrite shr_fexp_canonical.
  - cbn [shr_m]. unfold wholeNumber.
    destruct z as [|p|p]; try lia.
    assert (Hpos : 0 < Z.pos p * 2 ^ (53 - Zdigits2 (Z.pos p))).
    { apply Z.mul_pos_pos; [done|]. apply Z.pow_pos_nonneg; lia. }
    destruct (Z.pos p * 2 ^ (53 - Zdigits2 (Z.pos p))) as [|m|m] eqn:Hm;
      try lia.
    replace (Zdigits2 (Z.pos p) - 53 <=? 1024 - 53) with true; [done|].
    symmetry. apply Z.leb_le. lia.
  - rewrite Zdigits2_shift by lia. lia.
  - lia.
Qed.

Lemma Zdigits2_pos (z : Z) : 0 < z → 1 ≤ Zdigits2 z.
Proof.
  intros Hz. rewrite Zdigits2_log2 by done.
  pose proof (Z.log2_nonneg z). lia.
Qed.

Lemma iter_xO (m d : positive) :
  Z.pos (Pos.iter xO m d) = Z.pos m * 2 ^ Z.pos d.
Proof.
  induction d as [|d IH] using Pos.peano_ind.
  - simpl. lia.
  - rewrite Pos.iter_succ, Pos2Z.inj_xO, IH, Pos2Z.inj_succ.
    rewrite Z.pow_succ_r by lia. lia.
Qed.

Lemma shl_align_fst (m : positive) (e e' : Z) :
  e' ≤ e → Z.pos (fst (shl_align m e e')) = Z.pos m * 2 ^ (e - e').
Proof.
  intros He. unfold shl_align.
  destruct (e' - e) as [|d|d] eqn:Hd; try lia; simpl.
  - replace (e - e') with 0 by lia. lia.
  - rewrite iter_xO. do 2 f_equal. lia.
Qed.

Lemma normalize_exact (z k : Z) :
  0 < z → 0 ≤ k → Zdigits2 z ≤ 53 →
  binary_normalize 53 1024 (z * 2 ^ k) (- k) false = wholeNumber z.
Proof.
  intros Hz Hk Hd.
  pose proof (Zdigits2_pos z Hz) as Hd1.
  assert (Hpos : 0 < z * 2 ^ k).
  { apply Z.mul_pos_pos; [done|]. by apply Z.pow_pos_nonneg. }
  destruct (z * 2 ^ k) as [|m|m] eqn:Hm; try lia.
  unfold binary_normalize, binary_round.
  change (Z.pos (digits2_pos m)) with (Zdigits2 (Z.pos m)).
  rewrite <- Hm, Zdigits2_shift by done.
  rewrite fexp_normal by lia.
  unfold shl_align.
  destruct (Zdigits2 z + k + - k - 53 - - k) as [|d|d] eqn:Hshift.
  - rewrite <- Hm. apply round_exact; lia.
  - rewrite <- Hm. apply round_exact; lia.
  - rewrite iter_xO, <- Hm, <- Z.mul_assoc, <- Z.pow_add_r by lia.
    replace (Zdigits2 z + k + - k - 53) with (- (k + Z.pos d)) by lia.
    apply round_exact; lia.
Qed.

Lemma wholeNumber_add (a b : Z) :
  0 ≤ a → 0 ≤ b → a + b < 2 ^ 53 →
  SFadd 53 1024 (wholeNumber a) (wholeNumber b) = wholeNumber (a + b).
Proof.
  intros Ha Hb Hsum.
  destruct a as [|a|a]; [by destruct b|..]; try lia.
  destruct b as [|b|b]; [done|..]; try lia.
  assert (Hda : Zdigits2 (Z.pos a) ≤ 53 ∧ Zdigits2 (Z.pos b) ≤ 53
                ∧ Zdigits2 (Z.pos a + Z.pos b) ≤ 53).
  { pose proof (Zdigits2_bounds (Z.pos a) ltac:(lia)) as [Ha1 _].
    pose proof (Zdigits2_bounds (Z.pos b) ltac:(lia)) as [Hb1 _].
    pose proof (Zdigits2_bounds (Z.pos a + Z.pos b) ltac:(lia)) as [Hs1 _].
    repeat split; apply Z.nlt_ge; intros Hlt.
    - assert (2 ^ 53 ≤ 2 ^ (Zdigits2 (Z.pos a) - 1))
        by (apply Z.pow_le_mono_r; lia). lia.
    - assert (2 ^ 53 ≤ 2 ^ (Zdigits2 (Z.pos b) - 1))
        by (apply Z.pow_le_mono_r; lia). lia.
    - assert (2 ^ 53 ≤ 2 ^ (Zdigits2 (Z.pos a + Z.pos b) - 1))
        by (apply Z.pow_le_mono_r; lia). lia. }
  destruct Hda as (Hda & Hdb & Hds).
  pose proof (Zdigits2_pos (Z.pos a) ltac:(lia)) as Hda1.
  pose proof (Zdigits2_pos (Z.pos b) ltac:(lia)) as Hdb1.
  set (ea := Zdigits2 (Z.pos a) - 53).
  set (eb := Zdigits2 (Z.pos b) - 53).
  unfold wholeNumber at 1 2. fold ea eb. unfold SFadd.
  rewrite !shl_align_fst by lia. cbn [cond_Zopp].
  rewrite !Z2Pos.id
    by (apply Z.mul_pos_pos; [done|apply Z.pow_pos_nonneg; lia]).
  rewrite <- !Z.mul_assoc, <- !Z.pow_add_r by lia.
  replace (53 - Zdigits2 (Z.pos a) + (ea - Z.min ea eb))
    with (- Z.min ea eb) by lia.
  replace (53 - Zdigits2 (Z.pos b) + (eb - Z.min ea eb))
    with (- Z.min ea eb) by lia.
  rewrite <- Z.mul_add_distr_r.
  remember (- Z.min ea eb) as k eqn:Hk.
  replace (Z.min ea eb) with (- k) by lia.
  apply normalize_exact; lia.
Qed.

Lemma Zdigits2_below (z : Z) : 0 < z → z < 2 ^ 53 → Zdigits2 z ≤ 53.
Proof.
  intros Hz Hlt. pose proof (Zdigits2_bounds z Hz) as [Hlo _].
  apply Z.nlt_ge. intros Hd.
  assert (2 ^ 53 ≤ 2 ^ (Zdigits2 z - 1)) by (apply Z.pow_le_mono_r; lia).
  lia.
Qed.

Lemma new_location_double (b r : Z) :
  0 < b → 0 ≤ r → new_location (2 * b) (2 * r) = new_location b r.
Proof.
  intros Hb Hr. unfold new_location.
  rewrite Z.even_mul. cbn [Z.even orb].
  unfold new_location_even, new_location_odd.
  destruct (Z.eqb_spec r 0) as [->|Hne]; [by destruct (Z.even b)|].
  destruct (Z.eqb_spec (2 * r) 0) as [|_]; [lia|].
  apply Z.eqb_neq in Hne.
  destruct (Z.even b) eqn:Heven; rewrite Hne; f_equal.
  - destruct (Z.compare_spec (2 * (2 * r)) (2 * b));
      destruct (Z.compare_spec (2 * r) b); done || lia.
  - assert (Hodd : Z.odd b = true) by (by rewrite <- Z.negb_even, Heven).
    apply Z.odd_spec in Hodd as [c ->].
    destruct (Z.compare_spec (2 * (2 * r)) (2 * (2 * c + 1)));
      destruct (Z.compare_spec (2 * r + 1) (2 * c + 1)); done || lia.
Qed.

Lemma new_location_scaled (b r j : Z) :
  0 < b → 0 ≤ r → 0 ≤ j →
  new_location (b * 2 ^ j) (r * 2 ^ j) = new_location b r.
Proof.
  intros Hb Hr Hj. rewrite <- (Z2Nat.id j Hj).
  induction (Z.to_nat j) as [|n IH].
  - by rewrite !Z.mul_1_r.
  - rewrite Nat2Z.inj_succ, Z.pow_succ_r by lia.
    replace (b * (2 * 2 ^ Z.of_nat n)) with (2 * (b * 2 ^ Z.of_nat n)) by lia.
    replace (r * (2 * 2 ^ Z.of_nat n)) with (2 * (r * 2 ^ Z.of_nat n)) by lia.
    rewrite new_location_double; [done|..].
    + apply Z.mul_pos_pos; [done|]. apply Z.pow_pos_nonneg; lia.
    + apply Z.mul_nonneg_nonneg; [done|]. apply Z.pow_nonneg; lia.
Qed.

Lemma div_eucl_div_mod (a b : Z) : Z.div_eucl a b = (a / b, a mod b).
Proof. unfold Z.div, Z.modulo. by destruct (Z.div_eucl a b). Qed.

(** The quotient before rounding, for two whole numbers below [2^53] given
    with exponent [0]. *)
Lemma SFdiv_core_plain (a b : Z) :
  0 < a → a < 2 ^ 53 → 0 < b → b < 2 ^ 53 →
  SFdiv_core_binary 53 1024 a 0 b 0
  = (a * 2 ^ (53 - Zdigits2 a + Zdigits2 b) / b,
     - (53 - Zdigits2 a + Zdigits2 b),
     new_location b (a * 2 ^ (53 - Zdigits2 a + Zdigits2 b) mod b)).
Proof.
  intros Ha Ha53 Hb Hb53.
  pose proof (Zdigits2_pos a Ha). pose proof (Zdigits2_pos b Hb).
  pose proof (Zdigits2_below a Ha Ha53). pose proof (Zdigits2_below b Hb Hb53).
  unfold SFdiv_core_binary. rewrite fexp_normal by lia.
  replace (Z.min (Zdigits2 a + 0 - (Zdigits2 b + 0) - 53) (0 - 0))
    with (- (53 - Zdigits2 a + Zdigits2 b)) by lia.
  remember (53 - Zdigits2 a + Zdigits2 b) as s eqn:Hs.
  replace (0 - 0 - - s) with s by lia.
  destruct s as [|s|s]; try lia.
  rewrite Z.shiftl_mul_pow2 by lia.
  by rewrite div_eucl_div_mod.
Qed.

(** The same quotient, for the two numbers given with 53 digits. *)
Lemma SFdiv_core_whole (a b : Z) :
  0 < a → a < 2 ^ 53 → 0 < b → b < 2 ^ 53 →
  SFdiv_core_binary 53 1024
    (a * 2 ^ (53 - Zdigits2 a)) (Zdigits2 a - 53)
    (b * 2 ^ (53 - Zdigits2 b)) (Zdigits2 b - 53)
  = SFdiv_core_binary 53 1024 a 0 b 0.
Proof.
  intros Ha Ha53 Hb Hb53.
  pose proof (Zdigits2_pos a Ha). pose proof (Zdigits2_pos b Hb).
  pose proof (Zdigits2_below a Ha Ha53). pose proof (Zdigits2_below b Hb Hb53).
  rewrite SFdiv_core_plain by done.
  unfold SFdiv_core_binary.
  rewrite !Zdigits2_shift by lia. rewrite fexp_normal by lia.
  replace (Z.min (Zdigits2 a + (53 - Zdigits2 a) + (Zdigits2 a - 53)
                  - (Zdigits2 b + (53 - Zdigits2 b) + (Zdigits2 b - 53)) - 53)
                 (Zdigits2 a - 53 - (Zdigits2 b - 53)))
    with (- (53 - Zdigits2 a + Zdigits2 b)) by lia.
  replace (Zdigits2 a - 53 - (Zdigits2 b - 53)
           - - (53 - Zdigits2 a + Zdigits2 b)) with 53 by lia.
  rewrite Z.shiftl_mul_pow2 by lia.
  rewrite div_eucl_div_mod.
  set (s := 53 - Zdigits2 a + Zdigits2 b).
  set (j := 53 - Zdigits2 b).
  assert (Hscale : a * 2 ^ (53 - Zdigits2 a) * 2 ^ 53 = a * 2 ^ s * 2 ^ j).
  { rewrite <- !Z.mul_assoc, <- !Z.pow_add_r by lia.
    do 2 f_equal. lia. }
  rewrite Hscale.
  assert (Hj : 0 < 2 ^ j) by (apply Z.pow_pos_nonneg; lia).
  rewrite Z.div_mul_cancel_r by lia.
  rewrite Z.mul_mod_distr_r by lia.
  rewrite new_location_scaled; [done|done| |lia].
  apply Z.mod_pos_bound. lia.
Qed.

Lemma wholeNumber_div (a b : positive) :
  Z.pos a < 2 ^ 53 → Z.pos b < 2 ^ 53 →
  SFdiv 53 1024 (wholeNumber (Z.pos a)) (wholeNumber (Z.pos b))
  = toNumber (Z.pos a # b).
Proof.
  intros Ha Hb.
  pose proof (Zdigits2_below (Z.pos a) ltac:(lia) Ha).
  pose proof (Zdigits2_below (Z.pos b) ltac:(lia) Hb).
  unfold toNumber, wholeNumber. cbn [Qnum Qden]. unfold SFdiv.
  rewrite !Z2Pos.id
    by (apply Z.mul_pos_pos; [done|apply Z.pow_pos_nonneg; lia]).
  by rewrite SFdiv_core_whole.
Qed.

Lemma toNumber_exact (a b : positive) :
  Z.pos a < 2 ^ 53 → Z.pos b < 2 ^ 53 → (Z.pos b | Z.pos a) →
  toNumber (Z.pos a # b) = wholeNumber (Z.pos a / Z.pos b).
Proof.
  intros Ha Hb [c Hc].
  assert (Hcpos : 0 < c) by nia.
  pose proof (Zdigits2_below (Z.pos a) ltac:(lia) Ha) as Hda.
  pose proof (Zdigits2_below (Z.pos b) ltac:(lia) Hb) as Hdb.
  pose proof (Zdigits2_pos (Z.pos b) ltac:(lia)) as Hdb1.
  pose proof (Zdigits2_bounds (Z.pos a) ltac:(lia)) as [Halo Hahi].
  pose proof (Zdigits2_bounds (Z.pos b) ltac:(lia)) as [Hblo Hbhi].
  pose proof (Zdigits2_bounds c Hcpos) as [Hclo Hchi].
  assert (Hdc : Zdigits2 c ≤ 53) by (apply Zdigits2_below; [done|nia]).
  assert (Hdigits : Zdigits2 (Z.pos a) ≤ Zdigits2 c + Zdigits2 (Z.pos b)).
  { apply Z.nlt_ge. intros Hlt.
    assert (2 ^ (Zdigits2 c + Zdigits2 (Z.pos b))
            ≤ 2 ^ (Zdigits2 (Z.pos a) - 1))
      by (apply Z.pow_le_mono_r; lia).
    rewrite Z.pow_add_r in * by (pose proof (Zdigits2_pos c Hcpos); lia).
    nia. }
  unfold toNumber. cbn [Qnum Qden]. unfold SFdiv.
  rewrite SFdiv_core_plain by (done || lia).
  set (s := 53 - Zdigits2 (Z.pos a) + Zdigits2 (Z.pos b)).
  replace (Z.pos a * 2 ^ s) with (c * 2 ^ s * Z.pos b) by (rewrite Hc; lia).
  rewrite Z.div_mul, Z.mod_mul by lia.
  replace (Z.pos a / Z.pos b) with c by (rewrite Hc, Z.div_mul; lia).
  replace (new_location (Z.pos b) 0) with loc_Exact
    by (unfold new_location, new_location_even, new_location_odd;
        by destruct (Z.even _)).
  cbn [xorb]. apply round_exact; unfold s; lia.
Qed.

Lemma toNumber_whole (z : Z) :
  0 ≤ z → z < 2 ^ 53 → toNumber (inject_Z z) = wholeNumber z.
Proof.
  intros Hz Hlt. destruct z as [|p|p]; [done| |lia].
  change (inject_Z (Z.pos p)) with (Z.pos p # 1).
  rewrite toNumber_exact; [by rewrite Z.div_1_r|done|done|].
  apply Z.divide_1_l.
Qed.

Lemma wholeNumber_value (z : Z) :
  0 ≤ z → z < 2 ^ 53 → isExactly (wholeNumber z) (inject_Z z).
Proof.
  intros Hz Hlt. destruct z as [|p|p]; [done| |lia].
  pose proof (Zdigits2_below (Z.pos p) ltac:(lia) Hlt) as Hd.
  unfold isExactly, wholeNumber, numberValue.
  rewrite Z2Pos.id
    by (apply Z.mul_pos_pos; [done|apply Z.pow_pos_nonneg; lia]).
  rewrite inject_Z_mult, Zpower_Qpower by lia.
  rewrite Qmult_1_l, <- Qmult_assoc.
  rewrite <- Qpower_plus by done.
  replace (53 - Zdigits2 (Z.pos p) + (Zdigits2 (Z.pos p) - 53)) with 0 by lia.
  apply Qmult_1_r.
Qed.

Lemma total_nonneg (points : list Z) :
  Forall (Z.le 0) points → 0 ≤ total points.
Proof.
  induction 1 as [|z points Hz _ IH]; simpl; [done|]. unfold total in *.
  simpl. lia.
Qed.

Lemma roundedSum_whole (points : list Z) (acc : Z) :
  0 ≤ acc → Forall (Z.le 0) points → acc + total points < 2 ^ 53 →
  fold_left Number_add (toNumber <$> (inject_Z <$> points)) (wholeNumber acc)
  = wholeNumber (acc + total points).
Proof.
  intros Hacc Hall. revert acc Hacc.
  induction Hall as [|z points Hz Hall IH]; intros acc Hacc Hlt.
  - simpl. by rewrite Z.add_0_r.
  - pose proof (total_nonneg points Hall) as Hnonneg.
    change (total (z :: points)) with (z + total points) in Hlt.
    rewrite !fmap_cons. cbn [fold_left].
    rewrite toNumber_whole by lia.
    unfold Number_add at 2. rewrite wholeNumber_add by lia.
    rewrite IH by lia.
    change (total (z :: points)) with (z + total points).
    f_equal. lia.
Qed.

Lemma arithmeticMean_whole (points : list Z) :
  points ≠ [] →
  (total points # Pos.of_nat (length points)
   == arithmeticMean (inject_Z <$> points))%Q.
Proof.
  intros Hne. unfold arithmeticMean. rewrite length_fmap.
  assert (Hsum : (foldr Qplus 0 (inject_Z <$> points)
                  == inject_Z (total points))%Q).
  { clear Hne. induction points as [|z points IH]; [done|].
    rewrite fmap_cons. cbn [foldr]. rewrite IH.
    change (total (z :: points)) with (z + total points).
    by rewrite inject_Z_plus. }
  rewrite Hsum.
  assert (Hlen : Z.of_nat (length points) = Z.pos (Pos.of_nat (length points))).
  { destruct points; [done|]. cbn [length]. lia. }
  rewrite Hlen. symmetry. rewrite (Qmake_Qdiv (total points)). reflexivity.
Qed.

Lemma roundedMean_whole (points : list Z) :
  points ≠ [] → Forall (Z.le 0) points →
  total points < 2 ^ 53 → Z.of_nat (length points) < 2 ^ 53 →
  roundedMean (inject_Z <$> points)
  = toNumber (total points # Pos.of_nat (length points)).
Proof.
  intros Hne Hall Hsum Hlen. unfold roundedMean.
  change (S754_zero false) with (wholeNumber 0).
  rewrite roundedSum_whole by (done || lia).
  rewrite length_fmap, toNumber_whole by lia.
  pose proof (total_nonneg points Hall) as Hnonneg.
  assert (Hcount : Z.of_nat (length points)
                   = Z.pos (Pos.of_nat (length points))).
  { destruct points; [done|]. cbn [length]. lia. }
  rewrite Hcount in *. rewrite Z.add_0_l.
  destruct (total points) as [|sum|sum]; [done| |lia].
  by apply wholeNumber_div.
Qed.

Lemma isExactly_proper (x : spec_float) (q q' : Q) :
  (q == q')%Q → isExactly x q → isExactly x q'.
Proof.
  unfold isExactly. destruct (numberValue x); [|done].
  intros Heq Hv. by rewrite Hv.
Qed.

Lemma roundedMean_exact (points : list Z) :
  points ≠ [] → Forall (Z.le 0) points →
  total points < 2 ^ 53 → Z.of_nat (length points) < 2 ^ 53 →
  (Z.of_nat (length points) | total points) →
  isExactly (roundedMean (inject_Z <$> points))
            (arithmeticMean (inject_Z <$> points)).
Proof.
  intros Hne Hall Hsum Hlen Hdiv.
  rewrite roundedMean_whole by done.
  pose proof (total_nonneg points Hall) as Hnonneg.
  assert (Hcount : Z.of_nat (length points)
                   = Z.pos (Pos.of_nat (length points))).
  { destruct points; [done|]. cbn [length]. lia. }
  rewrite Hcount in *.
  eapply isExactly_proper; [by apply arithmeticMean_whole|].
  destruct (total points) as [|sum|sum] eqn:Htotal; [done| |lia].
  rewrite toNumber_exact by done.
  destruct Hdiv as [c Hc].
  eapply isExactly_proper; [|apply wholeNumber_value].
  - rewrite Hc, Z.div_mul by lia.
    rewrite (Qmake_Qdiv (c * _)), inject_Z_mult.
    field. discriminate.
  - apply Z.div_pos; lia.
  - apply Z.le_lt_trans with (Z.pos sum); [|done].
    apply Z.div_le_upper_bound; nia.
Qed.
End Binary64.

(** *** The average *)

Lemma fold_left_scores (attempts : list QuizAttempt) (start : spec_float) :
  fold_left (fun sum attempt => Number_add sum (toNumber (score attempt)))
            attempts start
  = fold_left Number_add (toNumber <$> (score <$> attempts)) start.
Proof.
  revert start. induction attempts as [|a l IH]; intros start; [done|].
  rewrite !fmap_cons. cbn [fold_left]. apply IH.
Qed.

Lemma averageQuizScore_roundedMean (progress : StudentProgress) :
  quizAttempts progress ≠ [] →
  averageQuizScore (computeStatistics progress)
  = roundedMean (score <$> quizAttempts progress).
Proof.
  intros Hne. unfold computeStatistics, roundedMean.
  cbn [averageQuizScore].
  destruct (quizAttempts progress) as [|a l]; [done|].
  change (0 <? length (a :: l))%nat with true. cbv iota.
  by rewrite fold_left_scores, length_fmap.
Qed.

(** The Numbers that some literals are read as: 0.1, 99.9, a third, and a
    literal halfway between two Numbers, which goes to the even one. *)
Example toNumber_samples :
  toNumber (1 # 10) = S754_finite false 7205759403792794 (-56)
  ∧ toNumber (999 # 10) = S754_finite false 7029837543348634 (-46)
  ∧ toNumber (1 # 3) = S754_finite false 6004799503160661 (-54)
  ∧ toNumber
      (100000000000000012490009027033011079765856266021728515625
       # 1000000000000000000000000000000000000000000000000000000000)
    = S754_finite false 7205759403792794 (-56)
  ∧ toNumber 90 = S754_finite false 6333186975989760 (-46)
  ∧ toNumber nearly100 = toNumber (999 # 10).
Proof. repeat split; vm_compute; reflexivity. Qed.

(** C5. [averageQuizScore] is [0] for a record without quiz attempts.  For a
    record with attempts it is the arithmetic mean as the arithmetic of
    Numbers gives it: the scores added to [0] in the order of the log and the
    sum divided by the number of attempts, every sum and the quotient being
    rounded to binary64.  When the scores are whole numbers, none negative,
    with a total below [2^53] (and fewer than [2^53] attempts, as in every
    array), no sum is rounded: the result is the exact mean rounded once, and
    it is the exact mean when the number of attempts divides the total.
    Scores 80, 90 and 100 average to 90. *)
Theorem average_quiz_score (progress : StudentProgress) :
  (quizAttempts progress = [] →
   averageQuizScore (computeStatistics progress) = S754_zero false)
  ∧ (quizAttempts progress ≠ [] →
     averageQuizScore (computeStatistics progress)
     = roundedMean (score <$> quizAttempts progress))
  ∧ (∀ points : list Z,
       score <$> quizAttempts progress = inject_Z <$> points →
       points ≠ [] →
       Forall (Z.le 0) points →
       (total points < 2 ^ 53)%Z →
       (Z.of_nat (length points) < 2 ^ 53)%Z →
       averageQuizScore (computeStatistics progress)
       = toNumber (total points # Pos.of_nat (length points))
       ∧ (total points # Pos.of_nat (length points)
          == arithmeticMean (score <$> quizAttempts progress))%Q
       ∧ ((Z.of_nat (length points) | total points)%Z →
          isExactly (averageQuizScore (computeStatistics progress))
                    (arithmeticMean (score <$> quizAttempts progress))))
  ∧ (score <$> quizAttempts progress = [80%Q; 90%Q; 100%Q] →
     isExactly (averageQuizScore (computeStatistics progress)) 90).
Proof.
  split; [|split; [|split]].
  - intros Hnil. unfold computeStatistics. cbn [averageQuizScore].
    by rewrite Hnil.
  - apply averageQuizScore_roundedMean.
  - intros points Hscores Hne Hall Hsum Hlen.
    assert (Hattempts : quizAttempts progress ≠ []).
    { intros Hnil. rewrite Hnil in Hscores. by destruct points. }
    rewrite averageQuizScore_roundedMean, Hscores by done.
    split; [by apply roundedMean_whole|].
    split; [by apply arithmeticMean_whole|].
    intros Hdiv. by apply roundedMean_exact.
  - intros Hscores.
    assert (Hattempts : quizAttempts progress ≠ []).
    { intros Hnil. by rewrite Hnil in Hscores. }
    rewrite averageQuizScore_roundedMean, Hscores by done.
    vm_compute. reflexivity.
Qed.

Lemma average_quiz_score_witness :
  averageQuizScore (computeStatistics aliceProgress) = S754_zero false
  ∧ averageQuizScore (computeStatistics threeAttempts)
    = roundedMean (score <$> quizAttempts threeAttempts)
  ∧ averageQuizScore (computeStatistics threeAttempts) = toNumber (270 # 3)
  ∧ isExactly (averageQuizScore (computeStatistics threeAttempts))
              (arithmeticMean (score <$> quizAttempts threeAttempts))
  ∧ averageQuizScore (computeStatistics thirdsProgress) = toNumber (4 # 3)
  ∧ isExactly (averageQuizScore (computeStatistics threeAttempts)) 90.
Proof.
  destruct (average_quiz_score aliceProgress) as (Hempty & _).
  destruct (average_quiz_score threeAttempts)
    as (_ & Hmean & Hwhole & Hinstance).
  destruct (Hwhole [80; 90; 100]%Z) as (Hrounded & _ & Hexact);
    [reflexivity|discriminate|repeat constructor; discriminate
    |reflexivity|reflexivity|].
  destruct (average_quiz_score thirdsProgress) as (_ & _ & Hthirds & _).
  destruct (Hthirds [1; 1; 2]%Z) as (Hnearest & _);
    [reflexivity|discriminate|repeat constructor; discriminate
    |reflexivity|reflexivity|].
  split; [exact (Hempty eq_refl)|].
  split; [apply Hmean; discriminate|].
  split; [exact Hrounded|].
  split; [apply Hexact; exists 90%Z; reflexivity|].
  split; [exact Hnearest|].
  apply Hinstance. reflexivity.
Defined.

(** The exact mean is not always what is returned.  The scores 1, 1 and 2
    have the mean 4/3, which is not a Number: the average is the Number
    nearest to it.  Three attempts with the same score, the Number nearest to
    99.9, have that score as their mean, and the average is the next Number
    above it (99.90000000000002): the sum of the three scores was rounded. *)
Lemma average_differs_from_the_exact_mean :
  ¬ isExactly (averageQuizScore (computeStatistics thirdsProgress))
              (arithmeticMean (score <$> quizAttempts thirdsProgress))
  ∧ (∀ attempt, attempt ∈ quizAttempts repeatedProgress →
       isExactly (toNumber (score attempt)) (score attempt))
  ∧ isExactly (toNumber nearly100)
              (arithmeticMean (score <$> quizAttempts repeatedProgress))
  ∧ averageQuizScore (computeStatistics repeatedProgress)
    = S754_finite false 7029837543348635 (-46)
  ∧ ¬ isExactly (averageQuizScore (computeStatistics repeatedProgress))
                (arithmeticMean (score <$> quizAttempts repeatedProgress)).
Proof.
  split; [|split; [|split; [|split]]].
  - intros H. vm_compute in H. discriminate.
  - intros attempt Hin. simpl in Hin.
    rewrite !elem_of_cons, elem_of_nil in Hin.
    destruct Hin as [->|[->|[->|[]]]]; vm_compute; reflexivity.
  - vm_compute. reflexivity.
  - vm_compute. reflexivity.
  - intros H. vm_compute in H. discriminate.
Qed.

(** ** Statistics: distinct lessons *)

Lemma Set_size_remove_dups (keys : list string) :
  Set_size keys = length (remove_dups keys).
Proof.
  unfold Set_size.
  rewrite <- (size_list_to_set (C := gset string) (remove_dups keys))
    by apply NoDup_remove_dups.
  f_equal. apply set_eq. intros k.
  rewrite !elem_of_list_to_set, elem_of_remove_dups. reflexivity.
Qed.

(** Two maps that identify the same elements of a list leave the same number
    of distinct images. *)
Lemma remove_dups_fmap_length {A B C : Type}
    `{EqDecision B} `{EqDecision C}
    (f : A → B) (g : A → C) (l : list A) :
  (∀ x y, x ∈ l → y ∈ l → f x = f y ↔ g x = g y) →
  length (remove_dups (f <$> l)) = length (remove_dups (g <$> l)).
Proof.
  induction l as [|a l IH]; intros Hfg; [reflexivity|].
  assert (Hin : f a ∈ f <$> l ↔ g a ∈ g <$> l).
  { rewrite !list_elem_of_fmap. split; intros (y & Hy & Hyl); exists y.
    - split; [|exact Hyl]. apply Hfg; [left | by right | exact Hy].
    - split; [|exact Hyl]. apply Hfg; [left | by right | exact Hy]. }
  assert (IH' : length (remove_dups (f <$> l))
                = length (remove_dups (g <$> l))).
  { apply IH. intros x y Hx Hy. apply Hfg; by right. }
  rewrite !fmap_cons. simpl.
  destruct (decide_rel elem_of (f a) (f <$> l)) as [Hf|Hf],
           (decide_rel elem_of (g a) (g <$> l)) as [Hg|Hg];
    simpl; try tauto; congruence.
Qed.

(** A prefix without colon is determined by the joined string. *)
Lemma colon_join_inj (a a' r r' : string) :
  hasColon a = false → hasColon a' = false →
  a +:+ ":" +:+ r = a' +:+ ":" +:+ r' →
  a = a' ∧ r = r'.
Proof.
  revert a'. induction a as [|c a IH]; intros [|c' a'] Ha Ha' Heq;
    simpl in *.
  all: try (by simplify_eq).
  apply orb_false_iff in Ha as [_ Ha]. apply orb_false_iff in Ha' as [_ Ha'].
  injection Heq as -> Heq.
  destruct (IH a' Ha Ha' Heq) as [-> ->]. done.
Qed.

Lemma lessonKey_inj (x y : LessonAccess) :
  hasColon (la_courseId x) = false → hasColon (la_sectionId x) = false →
  hasColon (la_courseId y) = false → hasColon (la_sectionId y) = false →
  lessonKey x = lessonKey y ↔ lessonTriple x = lessonTriple y.
Proof.
  intros Hcx Hsx Hcy Hsy. unfold lessonKey, lessonTriple. split.
  - intros H. apply colon_join_inj in H as [H1 H]; [|done..].
    apply colon_join_inj in H as [H2 H3]; [|done..]. congruence.
  - intros H. injection H as -> -> ->. reflexivity.
Qed.

(** C2, as stated, fails: the two accesses of [collidingProgress] are to
    distinct triples, and both have the key ["a:b:c:d"]. *)
Lemma unique_lessons_collision :
  uniqueLessonsAccessed (computeStatistics collidingProgress) = 1
  ∧ distinctLessons (lessonAccessHistory collidingProgress) = 2
  ∧ ¬ (∀ progress,
         uniqueLessonsAccessed (computeStatistics progress)
         = distinctLessons (lessonAccessHistory progress)).
Proof.
  assert (H1 : uniqueLessonsAccessed (computeStatistics collidingProgress) = 1).
  { simpl. rewrite Set_size_remove_dups. reflexivity. }
  assert (H2 : distinctLessons (lessonAccessHistory collidingProgress) = 2)
    by reflexivity.
  split; [exact H1|]. split; [exact H2|].
  intros H. specialize (H collidingProgress). rewrite H1, H2 in H.
  discriminate.
Qed.

(** C2, amended.  When no [courseId] and no [sectionId] of the history holds
    a colon, [uniqueLessonsAccessed] is the number of distinct
    (courseId, sectionId, chapterId) triples of [lessonAccessHistory]; two
    accesses to one such lesson and one access to another count 2. *)
Theorem unique_lessons_counts_distinct_triples (progress : StudentProgress) :
  (∀ access, access ∈ lessonAccessHistory progress →
     hasColon (la_courseId access) = false
     ∧ hasColon (la_sectionId access) = false) →
  uniqueLessonsAccessed (computeStatistics progress)
  = distinctLessons (lessonAccessHistory progress)
  ∧ (∀ a a' b,
       lessonAccessHistory progress = [a; a'; b] →
       lessonTriple a = lessonTriple a' →
       lessonTriple a ≠ lessonTriple b →
       uniqueLessonsAccessed (computeStatistics progress) = 2).
Proof.
  intros Hfree.
  assert (Heq : uniqueLessonsAccessed (computeStatistics progress)
                = distinctLessons (lessonAccessHistory progress)).
  { simpl. rewrite Set_size_remove_dups. unfold distinctLessons.
    apply remove_dups_fmap_length. intros x y Hx Hy.
    destruct (Hfree x Hx), (Hfree y Hy). by apply lessonKey_inj. }
  split; [exact Heq|].
  intros a a' b Hhist Hsame Hother. rewrite Heq, Hhist.
  unfold distinctLessons. rewrite !fmap_cons, <- Hsame. simpl.
  destruct (decide_rel elem_of (lessonTriple a)
              [lessonTriple a; lessonTriple b]) as [_|Hn];
    [|exfalso; apply Hn; left].
  destruct (decide_rel elem_of (lessonTriple a) [lessonTriple b])
    as [Hin|_]; [|reflexivity].
  rewrite elem_of_cons, elem_of_nil in Hin. tauto.
Qed.

Lemma unique_lessons_counts_distinct_triples_witness :
  uniqueLessonsAccessed (computeStatistics revisitingProgress) = 2.
Proof.
  destruct (unique_lessons_counts_distinct_triples revisitingProgress)
    as [_ H].
  - intros access Hin. simpl in Hin.
    rewrite !elem_of_cons, elem_of_nil in Hin.
    destruct Hin as [->|[->|[->|[]]]]; split; reflexivity.
  - eapply H; [reflexivity | reflexivity | discriminate].
Defined.

(** ** Statistics: the most accessed courses *)

Example arrayIndex_samples :
  arrayIndex "0" = Some 0%N ∧ arrayIndex "42" = Some 42%N
  ∧ arrayIndex "4294967294" = Some 4294967294%N
  ∧ arrayIndex "4294967295" = None ∧ arrayIndex "007" = None
  ∧ arrayIndex "" = None ∧ arrayIndex "1e3" = None
  ∧ arrayIndex "3f2504e0-4f89-11d3-9a0c-0305e82c3301" = None.
Proof. vm_compute. repeat split. Qed.

Example getTopItems_numbered :
  getTopItems ["2"; "1"] id 5
  = [mkTopItem "1" (FCount 1); mkTopItem "2" (FCount 1)].
Proof. vm_compute. reflexivity. Qed.

(** *** Relative position in a list *)

Section precedes.
Context {A : Type}.
Implicit Types (l : list A) (a b x : A).

Lemma precedes_cons l x a b :
  precedes (x :: l) a b ↔ (a = x ∧ b ∈ l) ∨ precedes l a b.
Proof.
  split.
  - intros (i & j & Hi & Hj & Hij).
    destruct j as [|j]; [lia|]. simpl in Hj.
    destruct i as [|i]; simpl in Hi.
    + left. split; [congruence|]. eapply list_elem_of_lookup_2, Hj.
    + right. exists i, j. repeat split; auto. lia.
  - intros [[-> Hb]|(i & j & Hi & Hj & Hij)].
    + apply list_elem_of_lookup in Hb as [j Hj].
      exists 0, (S j). repeat split; auto. lia.
    + exists (S i), (S j). repeat split; auto. lia.
Qed.

Lemma precedes_nil a b : ¬ precedes (@nil A) a b.
Proof. intros (i & j & Hi & _). by rewrite lookup_nil in Hi. Qed.

Lemma precedes_elem_of l a b : precedes l a b → a ∈ l ∧ b ∈ l.
Proof.
  intros (i & j & Hi & Hj & _).
  split; eapply list_elem_of_lookup_2; eauto.
Qed.

Lemma precedes_app l1 l2 a b :
  precedes (l1 ++ l2) a b
  ↔ precedes l1 a b ∨ precedes l2 a b ∨ (a ∈ l1 ∧ b ∈ l2).
Proof.
  induction l1 as [|x l1 IH]; simpl.
  - split; [auto|]. intros [H|[H|[H _]]]; auto.
    + by apply precedes_nil in H.
    + by apply elem_of_nil in H.
  - rewrite !precedes_cons, IH, elem_of_app, elem_of_cons. naive_solver.
Qed.

Lemma precedes_filter (P : A → Prop) `{∀ x, Decision (P x)} l a b :
  precedes (filter P l) a b → precedes l a b.
Proof.
  induction l as [|x l IH]; [done|].
  rewrite filter_cons. case_decide.
  - rewrite !precedes_cons, list_elem_of_filter. naive_solver.
  - rewrite precedes_cons. auto.
Qed.

Lemma precedes_NoDup l a b : NoDup l → precedes l a b → a ≠ b.
Proof.
  intros Hnd (i & j & Hi & Hj & Hij) ->.
  pose proof (NoDup_lookup _ _ _ _ Hnd Hi Hj). lia.
Qed.

Lemma precedes_take n l a b : precedes (take n l) a b → precedes l a b.
Proof.
  intros (i & j & Hi & Hj & Hij). exists i, j.
  apply lookup_take_Some in Hi as [Hi _].
  apply lookup_take_Some in Hj as [Hj _]. auto.
Qed.
End precedes.

Lemma precedes_fmap {A B} (f : A → B) (l : list A) (a' b' : B) :
  precedes (f <$> l) a' b'
  ↔ ∃ a b, a' = f a ∧ b' = f b ∧ precedes l a b.
Proof.
  split.
  - intros (i & j & Hi & Hj & Hij).
    apply list_lookup_fmap_Some in Hi as (a & -> & Ha).
    apply list_lookup_fmap_Some in Hj as (b & -> & Hb).
    exists a, b. repeat split. exists i, j. auto.
  - intros (a & b & -> & -> & i & j & Hi & Hj & Hij).
    exists i, j. split; [|split; [|exact Hij]].
    + by apply list_lookup_fmap_Some_2.
    + by apply list_lookup_fmap_Some_2.
Qed.

(** *** The sort, for a comparator that is the difference of two ranks *)

Section Array_sort_by_rank.
Context {A : Type} (comparefn : A → A → option Z) (rank : A → Z).
Implicit Types (l : list A) (a b x : A).

Lemma elem_of_insertSorted x l a :
  a ∈ insertSorted comparefn x l ↔ a = x ∨ a ∈ l.
Proof.
  induction l as [|y l IH]; simpl.
  - rewrite elem_of_cons, elem_of_nil. tauto.
  - destruct (_ <=? _)%Z; rewrite !elem_of_cons; [tauto|].
    rewrite IH. tauto.
Qed.

Lemma insertSorted_perm x l : insertSorted comparefn x l ≡ₚ x :: l.
Proof.
  induction l as [|y l IH]; simpl; [done|].
  destruct (_ <=? _)%Z; [done|]. rewrite IH. apply Permutation_swap.
Qed.

Lemma Array_sort_perm l : Array_sort comparefn l ≡ₚ l.
Proof.
  induction l as [|x l IH]; simpl; [done|].
  rewrite insertSorted_perm. by constructor.
Qed.

Lemma precedes_insertSorted x l a b :
  (∀ y, y ∈ l → sortCompare comparefn x y = (rank x - rank y)%Z) →
  (∀ c d, precedes l c d → (rank c ≤ rank d)%Z) →
  precedes (insertSorted comparefn x l) a b →
  precedes l a b
  ∨ (a = x ∧ b ∈ l ∧ (rank x ≤ rank b)%Z)
  ∨ (b = x ∧ a ∈ l ∧ (rank a < rank x)%Z).
Proof.
  induction l as [|y l IH]; intros Hcmp Hsorted; simpl.
  - intros H. apply precedes_cons in H as [[_ H]|H].
    + by apply elem_of_nil in H.
    + by apply precedes_nil in H.
  - assert (Hy : sortCompare comparefn x y = (rank x - rank y)%Z)
      by (apply Hcmp; left).
    assert (Htail : ∀ d, d ∈ l → (rank y ≤ rank d)%Z).
    { intros d Hd. apply Hsorted, precedes_cons. auto. }
    destruct (Z.leb_spec (sortCompare comparefn x y) 0) as [Hle|Hgt].
    + intros H. apply precedes_cons in H as [[-> Hb]|H]; [|auto].
      right. left. split; [done|]. split; [done|].
      apply elem_of_cons in Hb as [->|Hb]; [lia|].
      specialize (Htail b Hb). lia.
    + intros H. apply precedes_cons in H as [[-> Hb]|H].
      * apply elem_of_insertSorted in Hb as [->|Hb].
        -- right. right. split; [done|]. split; [left|lia].
        -- left. apply precedes_cons. auto.
      * destruct IH as [H'|[(-> & Hb & Hr)|(-> & Ha & Hr)]]; auto.
        -- intros z Hz. apply Hcmp. by right.
        -- intros c d Hcd. apply Hsorted, precedes_cons. auto.
        -- left. apply precedes_cons. auto.
        -- right. left. split; [done|]. split; [by right|done].
        -- right. right. split; [done|]. split; [by right|done].
Qed.

(** The sorted array is in ascending order of rank, and elements of equal
    rank keep the order they had. *)
Lemma Array_sort_stable l :
  (∀ a b, a ∈ l → b ∈ l →
     sortCompare comparefn a b = (rank a - rank b)%Z) →
  ∀ a b, precedes (Array_sort comparefn l) a b →
    (rank a ≤ rank b)%Z ∧ (rank a = rank b → precedes l a b).
Proof.
  induction l as [|x l IH]; intros Hcmp a b; simpl.
  - intros H. by apply precedes_nil in H.
  - assert (IH' : ∀ c d, precedes (Array_sort comparefn l) c d →
                    (rank c ≤ rank d)%Z ∧ (rank c = rank d → precedes l c d)).
    { apply IH. intros c d Hc Hd. apply Hcmp; by right. }
    intros H. apply precedes_insertSorted in H
      as [H|[(-> & Hb & Hr)|(-> & Ha & Hr)]].
    + destruct (IH' a b H) as [Hr Hst]. split; [done|].
      intros Heq. apply precedes_cons. auto.
    + split; [done|]. intros _. apply precedes_cons. left. split; [done|].
      by rewrite <- (Array_sort_perm l).
    + split; [lia|]. intros Heq. lia.
    + intros y Hy. apply Hcmp; [left|right].
      by rewrite <- (Array_sort_perm l).
    + intros c d Hcd. by apply IH'.
Qed.
End Array_sort_by_rank.

(** *** The frequency object after the loop *)

Lemma occurrences_snoc (k k' : string) (keys : list string) :
  occurrences k (keys ++ [k'])
  = occurrences k keys + (if decide (k = k') then 1 else 0).
Proof.
  unfold occurrences. rewrite filter_app, length_app, filter_cons, filter_nil.
  by destruct (decide (k = k')).
Qed.

Lemma occurrences_0 (k : string) (keys : list string) :
  k ∉ keys → occurrences k keys = 0.
Proof.
  intros Hk. unfold occurrences.
  induction keys as [|x keys IH]; [done|].
  apply not_elem_of_cons in Hk as [Hx Hk].
  rewrite filter_cons, decide_False by done. auto.
Qed.

Lemma appearsFirst_app (keys more : list string) (x y : string) :
  appearsFirst keys x y → appearsFirst (keys ++ more) x y.
Proof.
  intros (l1 & l2 & -> & Hy & Hxy).
  exists l1, (l2 ++ more)%list. by rewrite <- app_assoc.
Qed.

Lemma appearsFirst_snoc_new (keys : list string) (x k : string) :
  x ∈ keys → k ∉ keys → appearsFirst (keys ++ [k]) x k.
Proof.
  intros Hx Hk. apply list_elem_of_split in Hx as (l1 & l2 & ->).
  exists l1, (l2 ++ [k])%list. rewrite <- app_assoc. split; [done|].
  rewrite elem_of_app, elem_of_cons in Hk. split; [tauto|].
  intros ->. tauto.
Qed.

Lemma getOwn_setOwn (o : JsObject) (k k' : string) (v : FreqValue) :
  getOwn (setOwn o k v) k' = if decide (k = k') then Some v else getOwn o k'.
Proof.
  induction o as [|[k0 v0] o IH]; simpl.
  - destruct (String.eqb_spec k k'), (decide (k = k')); congruence.
  - destruct (String.eqb_spec k0 k) as [->|Hk0]; simpl.
    + destruct (String.eqb_spec k k'), (decide (k = k')); congruence.
    + rewrite IH.
      destruct (String.eqb_spec k0 k'), (decide (k = k')); congruence.
Qed.

Lemma getOwn_None (o : JsObject) (k : string) :
  getOwn o k = None ↔ k ∉ o.*1.
Proof.
  induction o as [|[k0 v0] o IH]; simpl.
  - split; [intros _; apply not_elem_of_nil | done].
  - rewrite not_elem_of_cons.
    destruct (String.eqb_spec k0 k) as [->|Hne]; [naive_solver|].
    rewrite IH. naive_solver.
Qed.

Lemma setOwn_keys_present (o : JsObject) (k : string) (v : FreqValue) :
  k ∈ o.*1 → (setOwn o k v).*1 = o.*1.
Proof.
  induction o as [|[k0 v0] o IH]; simpl; intros Hk.
  - by apply elem_of_nil in Hk.
  - destruct (String.eqb_spec k0 k) as [->|Hne]; [done|]. simpl.
    apply elem_of_cons in Hk as [->|Hk]; [done|]. f_equal. by apply IH.
Qed.

Lemma setOwn_keys_absent (o : JsObject) (k : string) (v : FreqValue) :
  k ∉ o.*1 → (setOwn o k v).*1 = (o.*1 ++ [k])%list.
Proof.
  induction o as [|[k0 v0] o IH]; simpl; intros Hk; [done|].
  apply not_elem_of_cons in Hk as [Hne Hk].
  destruct (String.eqb_spec k0 k) as [->|_]; [done|]. simpl.
  f_equal. by apply IH.
Qed.

Lemma elem_of_getOwn (o : JsObject) (k : string) (v : FreqValue) :
  NoDup o.*1 → (k, v) ∈ o ↔ getOwn o k = Some v.
Proof.
  induction o as [|[k0 v0] o IH]; simpl; intros Hnd.
  - rewrite elem_of_nil. naive_solver.
  - apply NoDup_cons in Hnd as [Hk0 Hnd]. rewrite elem_of_cons, IH by done.
    destruct (String.eqb_spec k0 k) as [->|Hne].
    + apply getOwn_None in Hk0. naive_solver.
    + naive_solver.
Qed.

Lemma inherited_proto (k : string) :
  inherited k = false → String.eqb k "__proto__" = false.
Proof.
  intros Hk. destruct (String.eqb_spec k "__proto__") as [->|]; [|done].
  discriminate Hk.
Qed.

Lemma tally_snoc (keys : list string) (k : string) :
  tally (keys ++ [k]) = countKey (tally keys) k.
Proof. unfold tally. by rewrite fold_left_app. Qed.

(** After the loop, when no key names a member of [Object.prototype]: the own
    keys are distinct, each key that occurs holds the number of its
    occurrences, and the keys stand in the order of their first
    appearance. *)
Lemma tally_spec (keys : list string) :
  (∀ k, k ∈ keys → inherited k = false) →
  NoDup (tally keys).*1
  ∧ (∀ k, getOwn (tally keys) k
          = if decide (k ∈ keys) then Some (FCount (occurrences k keys))
            else None)
  ∧ (∀ x y, precedes (tally keys).*1 x y → appearsFirst keys x y).
Proof.
  induction keys as [|k keys IH] using rev_ind; intros Hplain.
  - split; [constructor|]. split; [done|].
    intros x y H. by apply precedes_nil in H.
  - destruct IH as (Hnd & Hget & Hord).
    { intros k' Hk'. apply Hplain, elem_of_app. auto. }
    assert (Hk : inherited k = false).
    { apply Hplain, elem_of_app. right. by left. }
    rewrite tally_snoc. unfold countKey, setProp, getProp.
    rewrite (inherited_proto k Hk), Hk.
    pose proof (Hget k) as Hgk.
    destruct (decide (k ∈ keys)) as [Hin|Hnin]; rewrite Hgk; simpl.
    + assert (Hown : k ∈ (tally keys).*1).
      { destruct (decide (k ∈ (tally keys).*1)) as [|Hn]; [done|].
        apply getOwn_None in Hn. congruence. }
      rewrite setOwn_keys_present by done.
      split; [done|]. split.
      * intros k'. rewrite getOwn_setOwn, Hget, occurrences_snoc.
        destruct (decide (k = k')) as [->|Hne].
        -- rewrite decide_True by (apply elem_of_app; auto).
           by rewrite decide_True.
        -- rewrite (decide_False (P := k' = k)) by done.
           rewrite Nat.add_0_r.
           destruct (decide (k' ∈ keys)) as [Hk'|Hk'].
           ++ by rewrite decide_True by (apply elem_of_app; auto).
           ++ rewrite decide_False; [done|].
              rewrite elem_of_app, elem_of_cons, elem_of_nil. naive_solver.
      * intros x y Hxy. by apply appearsFirst_app, Hord.
    + assert (Hfresh : k ∉ (tally keys).*1) by by apply getOwn_None.
      rewrite setOwn_keys_absent by done.
      split; [|split].
      * apply NoDup_app. split; [done|]. split; [|apply NoDup_singleton].
        intros x Hx Hxk. apply list_elem_of_singleton in Hxk as ->. done.
      * intros k'. rewrite getOwn_setOwn, Hget, occurrences_snoc.
        destruct (decide (k = k')) as [->|Hne].
        -- rewrite decide_True by (apply elem_of_app; right; by left).
           rewrite decide_True by done. by rewrite occurrences_0.
        -- rewrite (decide_False (P := k' = k)) by done.
           rewrite Nat.add_0_r.
           destruct (decide (k' ∈ keys)) as [Hk'|Hk'].
           ++ by rewrite decide_True by (apply elem_of_app; auto).
           ++ rewrite decide_False; [done|].
              rewrite elem_of_app, elem_of_cons, elem_of_nil. naive_solver.
      * intros x y Hxy. apply precedes_app in Hxy as [H|[H|[Hx Hy]]].
        -- by apply appearsFirst_app, Hord.
        -- apply precedes_cons in H as [[_ H]|H].
           ++ by apply elem_of_nil in H.
           ++ by apply precedes_nil in H.
        -- apply list_elem_of_singleton in Hy as ->.
           apply appearsFirst_snoc_new; [|done].
           destruct (decide (x ∈ keys)) as [|Hn]; [done|].
           specialize (Hget x). rewrite decide_False in Hget by done.
           apply getOwn_None in Hget. done.
Qed.

(** *** The enumeration of the frequency object *)

Lemma arrayIndex_decimal (k : string) (n : N) :
  arrayIndex k = Some n → k = decimalOf n.
Proof.
  unfold arrayIndex. destruct (numberOf k) as [m|]; [|done].
  destruct (String.eqb_spec (decimalOf m) k) as [Heq|]; simpl; [|done].
  destruct (m <? 2 ^ 32 - 1)%N; [|done]. intros [= <-]. done.
Qed.

Lemma isIndexKey_Some (p : string * FreqValue) :
  isIndexKey p ↔ ∃ n, arrayIndex p.1 = Some n ∧ indexOf p = Z.of_N n.
Proof.
  unfold isIndexKey, indexOf. rewrite bool_decide_spec. split.
  - intros [n Hn]. exists n. by rewrite Hn.
  - intros (n & Hn & _). eauto.
Qed.

Lemma not_isIndexKey_None (p : string * FreqValue) :
  negb (isIndexKey p) → arrayIndex p.1 = None.
Proof.
  unfold isIndexKey. rewrite negb_True, bool_decide_spec.
  intros Hn. destruct (arrayIndex p.1); [|done]. destruct Hn. eauto.
Qed.

Lemma filter_partition_perm {A} (P : A → bool) (l : list A) :
  (filter P l ++ filter (fun x => negb (P x)) l)%list ≡ₚ l.
Proof.
  induction l as [|x l IH]; [done|].
  rewrite !filter_cons. destruct (P x); simpl.
  - by constructor.
  - rewrite <- Permutation_middle. by constructor.
Qed.

Lemma Object_entries_perm (o : JsObject) : Object_entries o ≡ₚ o.
Proof.
  unfold Object_entries. rewrite Array_sort_perm.
  apply filter_partition_perm.
Qed.

(** Where two entries stand in the enumeration: indices first and in
    ascending order, the other keys in the order of their creation. *)
Lemma Object_entries_order (o : JsObject) (p q : string * FreqValue) :
  NoDup o.*1 →
  precedes (Object_entries o) p q →
  match arrayIndex p.1, arrayIndex q.1 with
  | Some n, Some m => (n < m)%N
  | Some _, None => True
  | None, Some _ => False
  | None, None => precedes o p q
  end.
Proof.
  intros Hnd H. unfold Object_entries in H.
  apply precedes_app in H as [H|[H|[Hp Hq]]].
  - pose proof (precedes_elem_of _ _ _ H) as [Hp Hq].
    rewrite Array_sort_perm in Hp, Hq.
    apply list_elem_of_filter in Hp as [Hp _].
    apply list_elem_of_filter in Hq as [Hq _].
    apply isIndexKey_Some in Hp as (n & Hn & Hpn).
    apply isIndexKey_Some in Hq as (m & Hm & Hqm).
    rewrite Hn, Hm.
    apply (Array_sort_stable _ indexOf) in H as [Hle Hst]; [|done].
    destruct (decide (n = m)) as [->|Hne]; [|lia].
    exfalso.
    assert (Hprec : precedes o p q).
    { eapply precedes_filter, Hst. congruence. }
    assert (Hkeys : precedes o.*1 p.1 q.1).
    { apply precedes_fmap. eauto. }
    apply (precedes_NoDup _ _ _ Hnd Hkeys).
    apply arrayIndex_decimal in Hn, Hm. congruence.
  - pose proof (precedes_elem_of _ _ _ H) as [Hp Hq].
    apply list_elem_of_filter in Hp as [Hp _].
    apply list_elem_of_filter in Hq as [Hq _].
    rewrite (not_isIndexKey_None p Hp), (not_isIndexKey_None q Hq).
    eapply precedes_filter, H.
  - rewrite Array_sort_perm in Hp.
    apply list_elem_of_filter in Hp as [Hp _].
    apply list_elem_of_filter in Hq as [Hq _].
    apply isIndexKey_Some in Hp as (n & Hn & _).
    by rewrite Hn, (not_isIndexKey_None q Hq).
Qed.

(** *** Ranking *)

Lemma getTopItems_tally {A} (array : list A) (key : A → string) (limit : nat) :
  getTopItems array key limit
  = take limit
      (Array_sort byCountDescending
         (toTopItem <$> Object_entries (tally (key <$> array)))).
Proof.
  unfold getTopItems, tally. do 3 f_equal.
  generalize (@nil (string * FreqValue)).
  induction array as [|x array IH]; intros o; simpl; [done|].
  apply IH.
Qed.

Lemma value_toTopItem (o : list (string * FreqValue)) :
  value <$> (toTopItem <$> o) = o.*1.
Proof.
  rewrite <- list_fmap_compose. apply list_fmap_ext.
  by intros _ [k v] _.
Qed.

(** The full ranking computed by [getTopItems]. *)
Lemma getTopItems_ranking (keys : list string) :
  (∀ k, k ∈ keys → inherited k = false) →
  rankedByFrequency enumeratedFirst keys
    (Array_sort byCountDescending
       (toTopItem <$> Object_entries (tally keys))).
Proof.
  intros Hplain.
  destruct (tally_spec keys Hplain) as (Hnd & Hget & Hord).
  set (o := tally keys) in *.
  set (items := toTopItem <$> Object_entries o).
  assert (Hitems : ∀ item, item ∈ items →
            value item ∈ keys
            ∧ count item = FCount (occurrences (value item) keys)).
  { intros item Hitem.
    apply list_elem_of_fmap in Hitem as ([k v] & -> & Hkv).
    rewrite Object_entries_perm in Hkv.
    apply elem_of_getOwn in Hkv; [|done]. rewrite Hget in Hkv. simpl.
    destruct (decide (k ∈ keys)); by simplify_eq. }
  assert (Hcmp : ∀ a b, a ∈ items → b ∈ items →
            sortCompare byCountDescending a b
            = (frequencyRank keys a - frequencyRank keys b)%Z).
  { intros a b Ha Hb.
    destruct (Hitems a Ha) as [_ Hca], (Hitems b Hb) as [_ Hcb].
    unfold sortCompare, byCountDescending, frequencyRank.
    rewrite Hca, Hcb. simpl. lia. }
  assert (Hvalues : value <$> Array_sort byCountDescending items ≡ₚ o.*1).
  { rewrite Array_sort_perm. unfold items.
    rewrite value_toTopItem. by rewrite Object_entries_perm. }
  split; [|split; [|split]].
  - by rewrite Hvalues.
  - intros k. rewrite Hvalues. specialize (Hget k).
    destruct (decide (k ∈ keys)) as [Hk|Hk].
    + split; [done|]. intros _.
      destruct (decide (k ∈ o.*1)) as [|Hn]; [done|].
      apply getOwn_None in Hn. congruence.
    + apply getOwn_None in Hget. tauto.
  - intros item Hitem. rewrite Array_sort_perm in Hitem.
    by apply Hitems.
  - intros i j a b Hi Hj Hij.
    assert (Hab : precedes (Array_sort byCountDescending items) a b)
      by (exists i, j; auto).
    apply (Array_sort_stable _ (frequencyRank keys) _ Hcmp) in Hab
      as [Hle Hst].
    unfold frequencyRank in Hle, Hst. unfold outranks.
    destruct (decide (occurrences (value a) keys
                      = occurrences (value b) keys)) as [Heq|Hne]; [|lia].
    right. split; [done|].
    destruct Hst as (i' & j' & Hi' & Hj' & Hij'); [lia|].
    assert (Hprec : precedes items a b) by (exists i', j'; auto).
    apply precedes_fmap in Hprec as ([k1 v1] & [k2 v2] & -> & -> & Hprec).
    apply Object_entries_order in Hprec; [|done]. simpl in *.
    unfold enumeratedFirst.
    destruct (arrayIndex k1), (arrayIndex k2); try done.
    apply Hord, precedes_fmap. by exists (k1, v1), (k2, v2).
Qed.

Lemma rankedByFrequency_plain_keys (keys : list string) (full : list TopItem) :
  (∀ k, k ∈ keys → arrayIndex k = None) →
  rankedByFrequency enumeratedFirst keys full →
  rankedByFrequency appearsFirst keys full.
Proof.
  intros Hplain (Hnd & Hmem & Hcount & Hord).
  split; [done|]. split; [done|]. split; [done|].
  intros i j a b Hi Hj Hij.
  assert (Ha : arrayIndex (value a) = None).
  { apply Hplain, Hmem, list_elem_of_fmap. exists a. split; [done|].
    eapply list_elem_of_lookup_2, Hi. }
  assert (Hb : arrayIndex (value b) = None).
  { apply Hplain, Hmem, list_elem_of_fmap. exists b. split; [done|].
    eapply list_elem_of_lookup_2, Hj. }
  destruct (Hord i j a b Hi Hj Hij) as [Hlt|[Heq Htie]]; [by left|].
  right. split; [done|]. unfold enumeratedFirst in Htie.
  by rewrite Ha, Hb in Htie.
Qed.

(** C3, as stated, fails: course ["2"] is accessed before course ["1"], each
    once, and [mostAccessedCourses] lists ["1"] first, because the keys of the
    frequency object that are array indices are enumerated in numeric
    order. *)
Lemma most_accessed_ties_follow_enumeration :
  mostAccessedCourses (computeStatistics numberedProgress)
  = [mkTopItem "1" (FCount 1); mkTopItem "2" (FCount 1)]
  ∧ ¬ topRanked appearsFirst 5 (accessedCourses numberedProgress)
        (mostAccessedCourses (computeStatistics numberedProgress)).
Proof.
  assert (Hres : mostAccessedCourses (computeStatistics numberedProgress)
                 = [mkTopItem "1" (FCount 1); mkTopItem "2" (FCount 1)])
    by (vm_compute; reflexivity).
  split; [exact Hres|]. rewrite Hres.
  intros (full & (_ & _ & _ & Hord) & Htake).
  assert (Hlen : length full = 2).
  { apply (f_equal length) in Htake. rewrite length_take in Htake.
    cbn [length] in Htake. lia. }
  rewrite take_ge in Htake by lia. subst full.
  destruct (Hord 0 1 _ _ eq_refl eq_refl ltac:(lia)) as [Hlt|[_ Hfirst]].
  - vm_compute in Hlt. lia.
  - destruct Hfirst as (before & after & Hkeys & Hnot & _).
    change (accessedCourses numberedProgress) with ["2"; "1"] in Hkeys.
    simpl in Hkeys.
    destruct before as [|k before]; [discriminate|].
    injection Hkeys as <- _. apply Hnot. left.
Qed.

(** C3, amended.  When no [courseId] of the history names a member of
    [Object.prototype], [mostAccessedCourses] lists the [courseId] values of
    [lessonAccessHistory] with the numbers of their accesses, by descending
    frequency and cut to at most 5 entries; equal frequencies are listed in
    the order in which the keys of the frequency object are enumerated:
    array indices first, in ascending numeric order, then the other values by
    first appearance.  When no [courseId] is an array index either, ties are
    ordered by first appearance.  Over accesses to A, B, A, A, C, B the
    result is A with 3, B with 2, C with 1. *)
Theorem most_accessed_courses_ranking (progress : StudentProgress) :
  (∀ k, k ∈ accessedCourses progress → inherited k = false) →
  topRanked enumeratedFirst 5 (accessedCourses progress)
    (mostAccessedCourses (computeStatistics progress))
  ∧ (length (mostAccessedCourses (computeStatistics progress)) ≤ 5)%nat
  ∧ ((∀ k, k ∈ accessedCourses progress → arrayIndex k = None) →
     topRanked appearsFirst 5 (accessedCourses progress)
       (mostAccessedCourses (computeStatistics progress)))
  ∧ (accessedCourses progress = ["A"; "B"; "A"; "A"; "C"; "B"] →
     mostAccessedCourses (computeStatistics progress)
     = [mkTopItem "A" (FCount 3); mkTopItem "B" (FCount 2);
        mkTopItem "C" (FCount 1)]).
Proof.
  intros Hplain. simpl. rewrite getTopItems_tally.
  fold (accessedCourses progress).
  pose proof (getTopItems_ranking (accessedCourses progress) Hplain) as Hrank.
  split; [|split; [|split]].
  - eexists. split; [exact Hrank | reflexivity].
  - rewrite length_take. lia.
  - intros Hnoindex. eexists. split; [|reflexivity].
    by apply rankedByFrequency_plain_keys.
  - intros ->. vm_compute. reflexivity.
Qed.

Lemma inherited_alphabet (k : string) :
  k ∈ accessedCourses alphabetProgress → inherited k = false.
Proof.
  change (accessedCourses alphabetProgress)
    with ["A"; "B"; "A"; "A"; "C"; "B"].
  rewrite !elem_of_cons, elem_of_nil.
  intros [->|[->|[->|[->|[->|[->|[]]]]]]]; reflexivity.
Defined.

Lemma most_accessed_courses_ranking_witness :
  topRanked appearsFirst 5 (accessedCourses alphabetProgress)
    (mostAccessedCourses (computeStatistics alphabetProgress))
  ∧ mostAccessedCourses (computeStatistics alphabetProgress)
    = [mkTopItem "A" (FCount 3); mkTopItem "B" (FCount 2);
       mkTopItem "C" (FCount 1)].
Proof.
  destruct (most_accessed_courses_ranking alphabetProgress inherited_alphabet)
    as (_ & _ & Hties & Hexample).
  split.
  - apply Hties.
    change (accessedCourses alphabetProgress)
      with ["A"; "B"; "A"; "A"; "C"; "B"].
    intros k. rewrite !elem_of_cons, elem_of_nil.
    intros [->|[->|[->|[->|[->|[->|[]]]]]]]; reflexivity.
  - apply Hexample. reflexivity.
Defined.

(** * Further properties of the progress handlers *)

(** ** What a request can do to the store *)

(** A request leaves the stored records as they are, or creates the record
    of the user of its path, or replaces that record by one that extends
    it. *)
Lemma router_effect (route : Route) (req : Request) (w : World) :
  db (router route req w).2 = db w
  ∨ (db w !! params_userId req = None
     ∧ ∃ created,
         userId created = params_userId req
         ∧ db (router route req w).2
           = <[params_userId req := created]> (db w))
  ∨ (∃ progress progress',
       db w !! params_userId req = Some progress
       ∧ extends progress progress'
       ∧ db (router route req w).2
         = <[userId progress := progress']> (db w)).
Proof.
  destruct route; simpl;
    unfold getStudentProgress, recordLessonAccess, recordQuizAttempt,
      recordDiscussionActivity, getStudentStatistics;
    repeat (run_handler; try case_match; simplify_eq/=); auto;
    repeat match goal with
           | H : _ <$> _ = Some _ |- _ => apply fmap_Some in H as (? & ? & ->)
           end;
    try (right; left; split; [done|];
         eexists (mkStudentProgress _ _ _ _ _); split; reflexivity);
    right; right; eexists _, _; (split; [eassumption|]);
    (split; [|reflexivity]);
    unfold extends, pushLessonAccess, pushQuizAttempt,
      pushDiscussionActivity; simpl;
    repeat split; try reflexivity; by apply prefix_app_r.
Qed.



Lemma serve_snoc (requests : list (Route * Request))
    (route : Route) (req : Request) (w : World) :
  serve (requests ++ [(route, req)]) w
  = (router route req (serve requests w)).2.
Proof. unfold serve. by rewrite fold_left_app. Qed.

Lemma serve_keeps_filing (requests : list (Route * Request)) (w : World) :
  filed (db w) → filed (db (serve requests w)).
Proof.
  intros Hfiled.
  induction requests as [|[route req] requests IH] using rev_ind; [done|].
  rewrite serve_snoc. by apply router_keeps_filing.
Qed.

Lemma filed_sharedWorld : filed (db sharedWorld).
Proof.
  intros key progress. simpl.
  rewrite lookup_insert. case_decide; [by intros [= <-]|].
  rewrite lookup_insert. case_decide; [by intros [= <-]|].
  by rewrite lookup_empty.
Defined.



(** X2. A sequence of requests none of which has the user [key] in its path
    leaves whatever the store holds for [key] as it was: a handler reads and
    writes the record of the user of its path only. *)
Theorem other_users_are_untouched
    (requests : list (Route * Request)) (w : World) (key : string) :
  filed (db w) →
  (∀ request, request ∈ requests → params_userId request.2 ≠ key) →
  db (serve requests w) !! key = db w !! key.
Proof.
  intros Hfiled Hother.
  induction requests as [|[route req] requests IH] using rev_ind; [done|].
  rewrite serve_snoc, <- IH
    by (intros r Hr; apply Hother, elem_of_app; auto).
  assert (Hne : params_userId req ≠ key).
  { apply (Hother (route, req)), elem_of_app. right. by left. }
  pose proof (serve_keeps_filing requests w Hfiled) as Hfiled1.
  set (w1 := serve requests w) in *.
  destruct (router_effect route req w1)
    as [->|[(_ & created & _ & ->)|(p & p' & Hp & _ & ->)]].
  - done.
  - by rewrite lookup_insert_ne.
  - rewrite (Hfiled1 _ _ Hp). by rewrite lookup_insert_ne.
Qed.

Lemma other_users_are_untouched_witness :
  db (serve aliceSession sharedWorld) !! "bob" = db sharedWorld !! "bob".
Proof.
  apply (other_users_are_untouched aliceSession sharedWorld "bob").
  - exact filed_sharedWorld.
  - intros request Hin. unfold aliceSession in Hin.
    rewrite !elem_of_cons, elem_of_nil in Hin.
    destruct Hin as [->|[->|[]]]; discriminate.
Defined.

(** ** Answers *)

(** X4. Whatever the request, the store and the clock do, a handler returns:
    no exception of the store escapes it, and the status of the answer is one
    of those of its route (200, 403, 500; also 400 for the three recorders
    and 404 for the statistics). *)
Theorem every_request_is_answered
    (route : Route) (req : Request) (w : World) :
  ∃ res w',
    router route req w = (Returned res, w')
    ∧ status res ∈ statusesOf route.
Proof.
  destruct route; simpl;
    unfold getStudentProgress, recordLessonAccess, recordQuizAttempt,
      recordDiscussionActivity, getStudentStatistics;
    repeat (run_handler; try case_match; simplify_eq/=);
    eexists _, _; (split; [reflexivity|]); simpl;
    rewrite !elem_of_cons; auto 10.
Qed.






(** ** When the store fails *)

(** X7. When the first call of the store throws, an authorized request whose
    body passes the validation of its route is answered 500 with the error;
    the store was called once, to read the record of the user of the path;
    nothing was written and the clock was not read. *)
Theorem store_read_failure (route : Route) (req : Request) (w : World) :
  verifiedIdentity req = Some (params_userId req) →
  admitted route (body req) = true →
  faulty w (length (trace w)) = true →
  ∃ res w',
    router route req w = (Returned res, w')
    ∧ status res = 500
    ∧ data res = ErrorData StoreError
    ∧ db w' = db w
    ∧ trace w' = (trace w ++ [CallGet (params_userId req)])%list
    ∧ readings w' = readings w.
Proof.
  intros Hid Hadm Hfault. apply accessDenied_false_iff in Hid.
  destruct route; simpl in *;
    unfold getStudentProgress, recordLessonAccess, recordQuizAttempt,
      recordDiscussionActivity, getStudentStatistics;
    rewrite Hid;
    try (apply negb_true_iff in Hadm; rewrite Hadm);
    try (apply andb_true_iff in Hadm as [Hinc Hty];
         apply negb_true_iff in Hinc; rewrite Hinc, Hty; simpl);
    run_reliably Hfault; eauto 10.
Qed.

Lemma store_read_failure_witness :
  ∃ res w',
    router PostLessonAccess (aliceRequest lessonBody) brokenWorld
    = (Returned res, w')
    ∧ status res = 500
    ∧ data res = ErrorData StoreError
    ∧ db w' = db brokenWorld
    ∧ trace w' = (trace brokenWorld ++ [CallGet "alice"])%list
    ∧ readings w' = readings brokenWorld.
Proof.
  apply (store_read_failure PostLessonAccess (aliceRequest lessonBody)
           brokenWorld); reflexivity.
Defined.

(** X8. When the record is read but the write throws, a valid submission of
    any of the three kinds is answered 500 with the error and nothing is
    stored: the stored records are those before the request, although the
    write of the extended record was attempted. *)
Theorem store_write_failure
    (kind : EventKind) (req : Request) (w : World) (e : Event) :
  verifiedIdentity req = Some (params_userId req) →
  passesValidation kind (body req) = true →
  submittedEvent kind (body req) (instants w (readings w)) = Some e →
  faulty w (length (trace w)) = false →
  faulty w (S (length (trace w))) = true →
  ∃ res w' attempted,
    recorder kind req w = (Returned res, w')
    ∧ status res = 500
    ∧ data res = ErrorData StoreError
    ∧ db w' = db w
    ∧ trace w'
      = (trace w ++ [CallGet (params_userId req); CallSave attempted])%list
    ∧ last (eventLog kind attempted) = Some e.
Proof.
  intros Hid Hval Hsub Hget Hsave. apply accessDenied_false_iff in Hid.
  assert (Hlen : ∀ c, length (trace w ++ [c]) = S (length (trace w)))
    by (intros c; rewrite length_app; simpl; lia).
  destruct kind; simpl in *;
    unfold recordLessonAccess, recordQuizAttempt, recordDiscussionActivity;
    rewrite Hid.
  - apply negb_true_iff in Hval. rewrite Hval.
    destruct (lessonAccessEntry _ _ _ _) as [la|] eqn:Hla; simplify_eq/=.
    run_reliably Hget. rewrite Hla.
    destruct (db w !! params_userId req) as [p|]; simpl;
      run_handler; rewrite Hlen, Hsave; simpl;
      eexists _, _, _; (split; [reflexivity|]); simpl;
      rewrite <- app_assoc; repeat split;
      unfold pushLessonAccess; simpl; rewrite ?fmap_app; simpl; by rewrite ?last_snoc.
  - apply negb_true_iff in Hval. rewrite Hval.
    destruct (quizAttemptEntry _ _ _ _ _ _) as [qa|] eqn:Hqa; simplify_eq/=.
    run_reliably Hget. rewrite Hqa.
    destruct (db w !! params_userId req) as [p|]; simpl;
      run_handler; rewrite Hlen, Hsave; simpl;
      eexists _, _, _; (split; [reflexivity|]); simpl;
      rewrite <- app_assoc; repeat split;
      unfold pushQuizAttempt; simpl; rewrite ?fmap_app; simpl; by rewrite ?last_snoc.
  - apply andb_true_iff in Hval as [Hval Hinc].
    apply negb_true_iff in Hval. rewrite Hval, Hinc. simpl.
    destruct (discussionActivityEntry _ _ _ _ _ _) as [da|] eqn:Hda;
      simplify_eq/=.
    run_reliably Hget. rewrite Hda.
    destruct (db w !! params_userId req) as [p|]; simpl;
      run_handler; rewrite Hlen, Hsave; simpl;
      eexists _, _, _; (split; [reflexivity|]); simpl;
      rewrite <- app_assoc; repeat split;
      unfold pushDiscussionActivity; simpl;
      rewrite ?fmap_app; simpl; by rewrite ?last_snoc.
Qed.

Lemma store_write_failure_witness :
  ∃ res w' attempted,
    recorder LessonAccessEvent (aliceRequest lessonBody) readOnlyWorld
    = (Returned res, w')
    ∧ status res = 500
    ∧ data res = ErrorData StoreError
    ∧ db w' = db readOnlyWorld
    ∧ trace w'
      = (trace readOnlyWorld ++ [CallGet "alice"; CallSave attempted])%list
    ∧ last (eventLog LessonAccessEvent attempted) = Some lessonEvent.
Proof.
  apply (store_write_failure LessonAccessEvent (aliceRequest lessonBody)
           readOnlyWorld lessonEvent); reflexivity.
Defined.


(** ** Reading *)

(** A handler changes neither the behaviour of the store nor the clock. *)
Lemma router_keeps_environment (route : Route) (req : Request) (w : World) :
  faulty (router route req w).2 = faulty w
  ∧ instants (router route req w).2 = instants w.
Proof.
  destruct route; simpl;
    unfold getStudentProgress, recordLessonAccess, recordQuizAttempt,
      recordDiscussionActivity, getStudentStatistics;
    repeat (run_handler; try case_match; simplify_eq/=); auto.
Qed.

(** X9. [getStudentStatistics] only reads: whatever the request and whatever
    the store does, the stored records are unchanged, the clock is not read,
    and the store is called at most once, to read the record of the user of
    the path. *)
Theorem statistics_only_read (req : Request) (w : World) :
  db (getStudentStatistics req w).2 = db w
  ∧ readings (getStudentStatistics req w).2 = readings w
  ∧ (trace (getStudentStatistics req w).2 = trace w
     ∨ trace (getStudentStatistics req w).2
       = (trace w ++ [CallGet (params_userId req)])%list).
Proof.
  unfold getStudentStatistics.
  destruct (accessDenied _ _); [by auto|].
  run_handler. destruct (faulty w _); run_handler; [by auto|].
  destruct (db w !! params_userId req); run_handler; auto.
Qed.

(** The world after one more call of the store. *)
Lemma getStudentProgress_existing
    (req : Request) (w : World) (progress : StudentProgress) :
  accessDenied (getAuth req) (params_userId req) = false →
  faulty w (length (trace w)) = false →
  db w !! params_userId req = Some progress →
  getStudentProgress req w
  = (Returned (mkResponse 200 "Student progress retrieved successfully"
                          (ProgressData progress)),
     logCall (CallGet (params_userId req)) w).
Proof.
  intros Hid Hok Hp. unfold getStudentProgress. rewrite Hid.
  run_handler. rewrite Hok. run_handler. by rewrite Hp.
Qed.

(** X10. Reading the progress twice: the second answer carries the record of
    the first, and the second request writes nothing.  Only a first read for
    a user without a record writes, and it writes once. *)
Theorem progress_read_is_idempotent (req : Request) (w : World) :
  verifiedIdentity req = Some (params_userId req) →
  storeReliable w →
  ∃ res1 w1 res2 w2,
    getStudentProgress req w = (Returned res1, w1)
    ∧ getStudentProgress req w1 = (Returned res2, w2)
    ∧ status res1 = 200
    ∧ status res2 = 200
    ∧ data res2 = data res1
    ∧ db w2 = db w1
    ∧ trace w2 = (trace w1 ++ [CallGet (params_userId req)])%list.
Proof.
  intros Hid Hok. apply accessDenied_false_iff in Hid.
  destruct (db w !! params_userId req) as [p|] eqn:Hp.
  - rewrite (getStudentProgress_existing req w p Hid (Hok _) Hp).
    eexists _, _, _, _. split; [reflexivity|]. split.
    + apply getStudentProgress_existing; [done | apply Hok | exact Hp].
    + repeat split.
  - assert (Hfirst : ∃ w1,
              getStudentProgress req w
              = (Returned
                   (mkResponse 200 "Student progress initialized"
                      (ProgressData
                         (mkStudentProgress (params_userId req) [] [] []
                            (instants w (readings w))))), w1)
              ∧ faulty w1 = faulty w
              ∧ db w1 !! params_userId req
                = Some (mkStudentProgress (params_userId req) [] [] []
                          (instants w (readings w)))).
    { unfold getStudentProgress. rewrite Hid. run_reliably Hok.
      rewrite Hp. run_reliably Hok. eexists. split; [reflexivity|].
      simpl. by rewrite lookup_insert_eq. }
    destruct Hfirst as (w1 & Hrun & Henv & Hstored). rewrite Hrun.
    eexists _, w1, _, _. split; [reflexivity|]. split.
    + apply getStudentProgress_existing; [done | | exact Hstored].
      rewrite Henv. apply Hok.
    + repeat split.
Qed.

Lemma progress_read_is_idempotent_witness :
  ∃ res1 w1 res2 w2,
    getStudentProgress (aliceRequest ∅) quietWorld = (Returned res1, w1)
    ∧ getStudentProgress (aliceRequest ∅) w1 = (Returned res2, w2)
    ∧ status res1 = 200
    ∧ status res2 = 200
    ∧ data res2 = data res1
    ∧ db w2 = db w1
    ∧ trace w2 = (trace w1 ++ [CallGet "alice"])%list.
Proof.
  apply (progress_read_is_idempotent (aliceRequest ∅) quietWorld).
  - reflexivity.
  - intros n. reflexivity.
Defined.

(** ** Recording, then reading or recording again *)

(** X11. What a recorder answers is what the store then holds: after a valid
    submission of any of the three kinds, reading the progress of the same
    user returns (200) the very record that the recorder returned, whose
    target log ends with the event that the submission describes, stamped
    with the instant of the recording request; the read writes nothing. *)
Theorem recorded_event_is_read_back
    (submission : Submission) (req : Request) (w : World) :
  verifiedIdentity req = Some (params_userId req) →
  storeReliable w →
  filed (db w) →
  carries (body req) submission →
  complete submission →
  ∃ res1 w1 res2 w2 progress',
    recorder (kindOf submission) req w = (Returned res1, w1)
    ∧ getStudentProgress req w1 = (Returned res2, w2)
    ∧ data res1 = ProgressData progress'
    ∧ status res2 = 200
    ∧ data res2 = ProgressData progress'
    ∧ last (eventLog (kindOf submission) progress')
      = Some (eventOf submission (instants w (readings w)))
    ∧ db w2 = db w1.
Proof.
  intros Hid Hok Hfiled Hbody Hcomplete.
  destruct (submission_is_accepted submission (body req)
              (instants w (readings w)) Hbody Hcomplete) as [Hval Hsub].
  destruct (recorder_appends _ req w _ Hid Hok Hval Hsub)
    as (res1 & w1 & p' & Hrun & _ & Hdata & Hdb & _ & _ & _ & Hlog).
  assert (Henv : faulty w1 = faulty w).
  { destruct submission;
      [pose proof (router_keeps_environment PostLessonAccess req w) as [H _]
      |pose proof (router_keeps_environment PostQuizAttempt req w) as [H _]
      |pose proof (router_keeps_environment PostDiscussionActivity req w)
         as [H _]];
      simpl in *; by rewrite Hrun in H. }
  assert (Huid : userId p' = params_userId req
                 ∧ last (eventLog (kindOf submission) p')
                   = Some (eventOf submission (instants w (readings w)))).
  { destruct (db w !! params_userId req) as [p|] eqn:Hp.
    - destruct Hlog as (Hu & -> & _). rewrite last_snoc. split; [|done].
      rewrite Hu. by apply Hfiled.
    - destruct Hlog as (Hu & -> & _). done. }
  destruct Huid as [Huid Hlast].
  assert (Hstored : db w1 !! params_userId req = Some p').
  { rewrite Hdb, Huid. apply lookup_insert_eq. }
  apply accessDenied_false_iff in Hid.
  exists res1, w1. unfold getStudentProgress. rewrite Hid.
  run_handler. rewrite Henv, Hok. run_handler. rewrite Hstored.
  eexists _, _, p'. repeat split; done.
Qed.

Lemma recorded_event_is_read_back_witness :
  (∃ res1 w1 res2 w2 progress',
     recordDiscussionActivity (aliceRequest replyBody) sharedWorld
     = (Returned res1, w1)
     ∧ getStudentProgress (aliceRequest replyBody) w1 = (Returned res2, w2)
     ∧ data res1 = ProgressData progress'
     ∧ status res2 = 200
     ∧ data res2 = ProgressData progress'
     ∧ last (eventLog DiscussionEvent progress')
       = Some (DiscussionPosted
                 (mkDiscussionActivity "c-1" (Some "s-2") None Reply
                    (Some "cm-4") "2024-05-01T10:00:00.000Z"))
     ∧ db w2 = db w1)
  ∧ (∃ res1 w1 res2 w2 progress',
       recordQuizAttempt (aliceRequest timedQuizBody) sharedWorld
       = (Returned res1, w1)
       ∧ getStudentProgress (aliceRequest timedQuizBody) w1
         = (Returned res2, w2)
       ∧ data res1 = ProgressData progress'
       ∧ status res2 = 200
       ∧ data res2 = ProgressData progress'
       ∧ last (eventLog QuizAttemptEvent progress')
         = Some (QuizAttempted
                   (mkQuizAttempt "q-8" "c-1" "2024-05-01T10:00:00.000Z"
                                  (85 # 2) (Some 300%Q) false))
       ∧ db w2 = db w1)
  ∧ (∃ res1 w1 res2 w2 progress',
       recordLessonAccess (aliceRequest lessonBody) sharedWorld
       = (Returned res1, w1)
       ∧ getStudentProgress (aliceRequest lessonBody) w1 = (Returned res2, w2)
       ∧ data res1 = ProgressData progress'
       ∧ status res2 = 200
       ∧ data res2 = ProgressData progress'
       ∧ last (eventLog LessonAccessEvent progress')
         = Some (LessonAccessed
                   (mkLessonAccess "c-1" "s-2" "ch-3"
                                   "2024-05-01T10:00:00.000Z"))
       ∧ db w2 = db w1).
Proof.
  split; [|split].
  - apply (recorded_event_is_read_back
             (DiscussionSubmission "c-1" (Some "s-2") None Reply
                                   (Some "cm-4"))
             (aliceRequest replyBody) sharedWorld).
    + reflexivity.
    + intros n. reflexivity.
    + exact filed_sharedWorld.
    + repeat split.
    + discriminate.
  - apply (recorded_event_is_read_back
             (QuizSubmission "q-8" "c-1" (85 # 2) (Some 300%Q) (Some false))
             (aliceRequest timedQuizBody) sharedWorld).
    + reflexivity.
    + intros n. reflexivity.
    + exact filed_sharedWorld.
    + repeat split.
    + repeat split; discriminate.
  - apply (recorded_event_is_read_back
             (LessonSubmission "c-1" "s-2" "ch-3")
             (aliceRequest lessonBody) sharedWorld).
    + reflexivity.
    + intros n. reflexivity.
    + exact filed_sharedWorld.
    + repeat split.
    + repeat split; discriminate.
Defined.

(** X12. Two valid submissions of one kind for one user, one after the
    other, are both kept, in the order of submission and each with the
    instant of its own request: the stored log is the log before, followed by
    the event of the first submission and then the event of the second.
    Nothing is deduplicated: the same body submitted twice gives two
    events. *)
Theorem two_submissions_are_both_kept
    (first second : Submission) (req1 req2 : Request) (w : World) :
  kindOf second = kindOf first →
  verifiedIdentity req1 = Some (params_userId req1) →
  verifiedIdentity req2 = Some (params_userId req2) →
  params_userId req2 = params_userId req1 →
  storeReliable w →
  filed (db w) →
  carries (body req1) first → complete first →
  carries (body req2) second → complete second →
  ∃ res1 w1 res2 w2 progress2,
    recorder (kindOf first) req1 w = (Returned res1, w1)
    ∧ recorder (kindOf first) req2 w1 = (Returned res2, w2)
    ∧ status res1 = 200
    ∧ status res2 = 200
    ∧ db w2 !! params_userId req1 = Some progress2
    ∧ eventLog (kindOf first) progress2
      = (storedLog (kindOf first) w (params_userId req1)
         ++ [eventOf first (instants w (readings w));
             eventOf second (instants w (S (readings w)))])%list.
Proof.
  intros Hkind Hid1 Hid2 Hsame Hok Hfiled Hbody1 Hcomplete1 Hbody2 Hcomplete2.
  destruct (submission_is_accepted first (body req1)
              (instants w (readings w)) Hbody1 Hcomplete1) as [Hval1 Hsub1].
  destruct (submission_is_accepted second (body req2)
              (instants w (S (readings w))) Hbody2 Hcomplete2)
    as [Hval2 Hsub2].
  rewrite Hkind in Hval2, Hsub2.
  destruct (recorder_appends _ req1 w _ Hid1 Hok Hval1 Hsub1)
    as (res1 & w1 & p1 & Hrun1 & Hst1 & _ & Hdb1 & _ & Hclock & _ & Hlog1).
  assert (Henv : faulty w1 = faulty w ∧ instants w1 = instants w).
  { destruct first;
      [pose proof (router_keeps_environment PostLessonAccess req1 w) as H
      |pose proof (router_keeps_environment PostQuizAttempt req1 w) as H
      |pose proof (router_keeps_environment PostDiscussionActivity req1 w)
         as H];
      simpl in *; by rewrite Hrun1 in H. }
  destruct Henv as [Hfaulty Hinstants].
  assert (Hp1 : userId p1 = params_userId req1
                ∧ eventLog (kindOf first) p1
                  = (storedLog (kindOf first) w (params_userId req1)
                     ++ [eventOf first (instants w (readings w))])%list).
  { unfold storedLog.
    destruct (db w !! params_userId req1) as [p|] eqn:Hp; simpl.
    - destruct Hlog1 as (Hu & -> & _). split; [|done].
      rewrite Hu. by apply Hfiled.
    - by destruct Hlog1 as (Hu & -> & _). }
  destruct Hp1 as [Huid1 Hlog1'].
  assert (Hstored1 : db w1 !! params_userId req2 = Some p1).
  { rewrite Hsame, Hdb1, Huid1. apply lookup_insert_eq. }
  assert (Hok1 : storeReliable w1).
  { intros n. rewrite Hfaulty. apply Hok. }
  assert (Hsub2' : submittedEvent (kindOf first) (body req2)
                     (instants w1 (readings w1))
                   = Some (eventOf second (instants w (S (readings w))))).
  { by rewrite Hinstants, Hclock. }
  destruct (recorder_appends _ req2 w1 _ Hid2 Hok1 Hval2 Hsub2')
    as (res2 & w2 & p2 & Hrun2 & Hst2 & _ & Hdb2 & _ & _ & _ & Hlog2).
  rewrite Hstored1 in Hlog2. destruct Hlog2 as (Hu2 & Hlog2 & _).
  exists res1, w1, res2, w2, p2. repeat split; try done.
  - rewrite Hdb2, Hu2, Huid1. apply lookup_insert_eq.
  - rewrite Hlog2, Hlog1', <- app_assoc. reflexivity.
Qed.

Lemma two_submissions_are_both_kept_witness :
  (∃ res1 w1 res2 w2 progress2,
     recordDiscussionActivity (aliceRequest replyBody) tickingWorld
     = (Returned res1, w1)
     ∧ recordDiscussionActivity (aliceRequest reactionBody) w1
       = (Returned res2, w2)
     ∧ status res1 = 200
     ∧ status res2 = 200
     ∧ db w2 !! "alice" = Some progress2
     ∧ eventLog DiscussionEvent progress2
       = [DiscussionPosted
            (mkDiscussionActivity "c-1" (Some "s-2") None Reply
               (Some "cm-4") "2024-05-01T10:00:00.000Z");
          DiscussionPosted
            (mkDiscussionActivity "c-2" None None Reaction None
               "2024-05-01T10:00:05.000Z")])
  ∧ (∃ res1 w1 res2 w2 progress2,
       recordLessonAccess (aliceRequest lessonBody) tickingWorld
       = (Returned res1, w1)
       ∧ recordLessonAccess (aliceRequest lessonBody) w1
         = (Returned res2, w2)
       ∧ status res1 = 200
       ∧ status res2 = 200
       ∧ db w2 !! "alice" = Some progress2
       ∧ eventLog LessonAccessEvent progress2
         = (eventLog LessonAccessEvent aliceProgress
            ++ [lessonEvent; lessonEventLater])%list).
Proof.
  assert (Hfiled : filed (db tickingWorld)).
  { intros key progress. simpl.
    rewrite lookup_insert. case_decide; [by intros [= <-]|].
    by rewrite lookup_empty. }
  split.
  - apply (two_submissions_are_both_kept
             (DiscussionSubmission "c-1" (Some "s-2") None Reply
                                   (Some "cm-4"))
             (DiscussionSubmission "c-2" None None Reaction None)
             (aliceRequest replyBody) (aliceRequest reactionBody)
             tickingWorld); try reflexivity; try exact Hfiled.
    + intros n. reflexivity.
    + repeat split.
    + discriminate.
    + repeat split.
    + discriminate.
  - apply (two_submissions_are_both_kept
             (LessonSubmission "c-1" "s-2" "ch-3")
             (LessonSubmission "c-1" "s-2" "ch-3")
             (aliceRequest lessonBody) (aliceRequest lessonBody)
             tickingWorld); try reflexivity; try exact Hfiled.
    + intros n. reflexivity.
    + repeat split.
    + repeat split; discriminate.
    + repeat split.
    + repeat split; discriminate.
Defined.

(** ** More on the statistics *)

Lemma remove_dups_length_le {A} `{EqDecision A} (l : list A) :
  (length (remove_dups l) ≤ length l)%nat.
Proof.
  induction l as [|x l IH]; simpl; [done|].
  destruct (decide_rel elem_of x l); simpl; lia.
Qed.

Lemma remove_dups_nil_inv {A} `{EqDecision A} (l : list A) :
  remove_dups l = [] → l = [].
Proof.
  destruct l as [|x l]; [done|]. intros Hnil.
  assert (Hx : x ∈ remove_dups (x :: l)) by (apply elem_of_remove_dups; left).
  rewrite Hnil in Hx. by apply elem_of_nil in Hx.
Qed.

(** X13. The two counts of distinct items never exceed the totals they
    belong to, and are zero only for an empty log; [uniqueQuizAttempts] is
    the number of distinct [quizId] values among the quiz attempts. *)
Theorem unique_counts_are_bounded (progress : StudentProgress) :
  (uniqueLessonsAccessed (computeStatistics progress)
   ≤ totalLessonsAccessed (computeStatistics progress))%nat
  ∧ (uniqueLessonsAccessed (computeStatistics progress) = 0
     ↔ lessonAccessHistory progress = [])
  ∧ uniqueQuizAttempts (computeStatistics progress)
    = length (remove_dups (qa_quizId <$> quizAttempts progress))
  ∧ (uniqueQuizAttempts (computeStatistics progress)
     ≤ totalQuizAttempts (computeStatistics progress))%nat
  ∧ (uniqueQuizAttempts (computeStatistics progress) = 0
     ↔ quizAttempts progress = []).
Proof.
  simpl. rewrite !Set_size_remove_dups.
  pose proof (remove_dups_length_le (map lessonKey (lessonAccessHistory progress)))
    as Hl.
  pose proof (remove_dups_length_le (map qa_quizId (quizAttempts progress)))
    as Hq.
  rewrite !length_map in Hl, Hq.
  split; [exact Hl|]. split; [|split; [reflexivity|split; [exact Hq|]]].
  - split.
    + intros H0. apply length_zero_iff_nil, remove_dups_nil_inv in H0.
      by apply map_eq_nil in H0.
    + by intros ->.
  - split.
    + intros H0. apply length_zero_iff_nil, remove_dups_nil_inv in H0.
      by apply map_eq_nil in H0.
    + by intros ->.
Qed.

(** X14. The three counts of [discussionBreakdown] add up to
    [totalDiscussionActivities]: every stored activity is counted in exactly
    one of comments, replies and reactions. *)
Theorem discussion_breakdown_adds_up (progress : StudentProgress) :
  comments (discussionBreakdown (computeStatistics progress))
  + replies (discussionBreakdown (computeStatistics progress))
  + reactions (discussionBreakdown (computeStatistics progress))
  = totalDiscussionActivities (computeStatistics progress).
Proof.
  simpl. induction (discussionActivities progress) as [|a l IH]; [done|].
  rewrite !filter_cons.
  repeat case_decide; simpl; rewrite <- IH; unfold hasType in *;
    destruct (activityType a); simpl in *; try lia; congruence.
Qed.

(** The frequency object after the loop, for any keys. *)
Lemma tally_lookup (keys : list string) :
  NoDup (tally keys).*1
  ∧ ∀ k, getOwn (tally keys) k
         = if decide (k ∈ keys) then tallied k (occurrences k keys)
           else None.
Proof.
  induction keys as [|k keys IH] using rev_ind.
  - split; [constructor | done].
  - destruct IH as (Hnd & Hget).
    rewrite tally_snoc. unfold countKey, setProp, getProp.
    assert (Hmem : ∀ k', k' ≠ k →
              (if decide (k' ∈ (keys ++ [k])%list)
               then tallied k' (occurrences k' (keys ++ [k])%list) else None)
              = (if decide (k' ∈ keys)
                 then tallied k' (occurrences k' keys) else None)).
    { intros k' Hne. rewrite occurrences_snoc.
      rewrite (decide_False (P := k' = k)) by done. rewrite Nat.add_0_r.
      destruct (decide (k' ∈ keys)) as [Hk'|Hk'].
      - by rewrite decide_True by (apply elem_of_app; auto).
      - rewrite decide_False; [done|].
        rewrite elem_of_app, elem_of_cons, elem_of_nil. naive_solver. }
    assert (Hlast : k ∈ (keys ++ [k])%list) by (apply elem_of_app; right; by left).
    destruct (String.eqb_spec k "__proto__") as [->|Hproto].
    { split; [done|]. intros k'.
      destruct (decide (k' = "__proto__")) as [->|Hne].
      - rewrite (decide_True (P := "__proto__" ∈ (keys ++ ["__proto__"])%list))
          by done.
        rewrite Hget. by destruct (decide ("__proto__" ∈ keys)).
      - by rewrite Hget, Hmem. }
    pose proof (Hget k) as Hgk.
    destruct (decide (k ∈ keys)) as [Hin|Hnin].
    + assert (Hown : inherited k = true ∨ k ∈ (tally keys).*1).
      { destruct (inherited k) eqn:Hinh; [by left|right].
        destruct (decide (k ∈ (tally keys).*1)) as [|Hn]; [done|].
        apply getOwn_None in Hn. unfold tallied in Hgk.
        rewrite Hinh in Hgk. congruence. }
      unfold tallied in Hgk.
      destruct (inherited k) eqn:Hinh.
      * apply String.eqb_neq in Hproto. rewrite Hproto in Hgk.
        rewrite Hgk. simpl.
        assert (Hpresent : k ∈ (tally keys).*1).
        { destruct (decide (k ∈ (tally keys).*1)) as [|Hn]; [done|].
          apply getOwn_None in Hn. congruence. }
        rewrite setOwn_keys_present by done. split; [done|].
        intros k'. rewrite getOwn_setOwn.
        destruct (decide (k = k')) as [<-|Hne].
        -- rewrite (decide_True (P := k ∈ (keys ++ [k])%list)) by done.
           unfold tallied. by rewrite Hinh, Hproto.
        -- by rewrite Hget, Hmem.
      * rewrite Hgk. simpl.
        destruct Hown as [?|Hpresent]; [done|].
        rewrite setOwn_keys_present by done. split; [done|].
        intros k'. rewrite getOwn_setOwn.
        destruct (decide (k = k')) as [<-|Hne].
        -- rewrite (decide_True (P := k ∈ (keys ++ [k])%list)) by done.
           unfold tallied. rewrite Hinh.
           by rewrite occurrences_snoc, (decide_True (P := k = k)).
        -- by rewrite Hget, Hmem.
    + rewrite Hgk.
      assert (Hfresh : k ∉ (tally keys).*1) by by apply getOwn_None.
      assert (Hnew : NoDup ((tally keys).*1 ++ [k])%list).
      { apply NoDup_app. split; [done|]. split; [|apply NoDup_singleton].
        intros x Hx Hxk. apply list_elem_of_singleton in Hxk as ->. done. }
      destruct (inherited k) eqn:Hinh; simpl;
        rewrite setOwn_keys_absent by done; (split; [done|]);
        intros k'; rewrite getOwn_setOwn;
        (destruct (decide (k = k')) as [<-|Hne];
         [|by rewrite Hget, Hmem]);
        rewrite (decide_True (P := k ∈ (keys ++ [k])%list)) by done;
        unfold tallied; rewrite Hinh.
      * apply String.eqb_neq in Hproto. by rewrite Hproto.
      * by rewrite occurrences_snoc, (decide_True (P := k = k)),
          occurrences_0.
Qed.

(** X16. Whatever the course ids are, [mostAccessedCourses] lists no course
    twice and only courses of the history; a course id [__proto__] is never
    listed, however often it was accessed; an entry whose course id names
    another member of [Object.prototype] (such as [constructor]) carries a
    string instead of a count; every other entry carries exactly the number
    of accesses to its course. *)
Theorem most_accessed_courses_entries (progress : StudentProgress) :
  NoDup (value <$> mostAccessedCourses (computeStatistics progress))
  ∧ ∀ item,
      item ∈ mostAccessedCourses (computeStatistics progress) →
      value item ∈ accessedCourses progress
      ∧ value item ≠ "__proto__"
      ∧ count item
        = if inherited (value item) then FText
          else FCount (occurrences (value item) (accessedCourses progress)).
Proof.
  simpl. rewrite getTopItems_tally. fold (accessedCourses progress).
  destruct (tally_lookup (accessedCourses progress)) as (Hnd & Hget).
  set (o := tally (accessedCourses progress)) in *.
  set (sorted := Array_sort byCountDescending
                   (toTopItem <$> Object_entries o)).
  assert (Hvalues : value <$> sorted ≡ₚ o.*1).
  { unfold sorted. rewrite Array_sort_perm, value_toTopItem.
    by rewrite Object_entries_perm. }
  split.
  - rewrite fmap_take. apply (sublist_NoDup _ (value <$> sorted)).
    + by rewrite Hvalues.
    + apply sublist_take.
  - intros item Hitem. apply subseteq_take in Hitem.
    unfold sorted in Hitem. rewrite Array_sort_perm in Hitem.
    apply list_elem_of_fmap in Hitem as ([k v] & -> & Hkv).
    rewrite Object_entries_perm in Hkv.
    apply elem_of_getOwn in Hkv; [|done]. rewrite Hget in Hkv. simpl.
    destruct (decide (k ∈ accessedCourses progress)) as [Hk|]; [|done].
    split; [done|]. unfold tallied in Hkv.
    destruct (inherited k) eqn:Hinh.
    + destruct (String.eqb_spec k "__proto__"); [done|].
      by simplify_eq.
    + split; [|by simplify_eq]. intros ->. discriminate Hinh.
Qed.

(** * Upload of a course document *)


Example getUploadDocumentUrl_pdf :
  getUploadDocumentUrl uploadEnv "c-1" pdfBody
  = mkUploadResponse 200 "Document upload URL generated successfully"
      (Some (mkDocumentUpload
               "https://signed.example/documents/courses/c-1/7b0c-notes.pdf"
               "https://cdn.example/documents/courses/c-1/7b0c-notes.pdf"
               "pdf")).
Proof. vm_compute. reflexivity. Qed.


(** * Quizzes: reading and deleting *)

Ltac run_quiz :=
  repeat (progress
            (cbv [qtry qbind qret answer storeCall Quiz_get Course_get
                  Quiz_save Quiz_delete]; simpl)).

Example deleteQuestion_first_match :
  (deleteQuestion id teacherRequest quizWorld).1
  = Returned (mkQuizResponse 200 "Question deleted successfully"
                (QuestionData (sampleQuestion "b" "second")))
  ∧ questions <$> quizzes (deleteQuestion id teacherRequest quizWorld).2
                  !! "quiz-1"
    = Some (Some [mkQuestion "a" "first" "Essay" None (Some 1%Q) None;
                  mkQuestion "b" "third" "Essay" None (Some 1%Q) None]).
Proof. split; reflexivity. Qed.

Section QuizControllerProperties.
Context {Course : Type} (teacherId : Course → string).
Implicit Types (w : QuizWorld (Course := Course)) (req : QuizRequest).

(** X18. Deleting is reserved to the teacher of the course of the quiz: when
    the caller is not that teacher (or the quiz or its course is missing),
    [deleteQuiz] and [deleteQuestion] leave every quiz as it is and answer
    403, 404 or 500, never 200. *)
Theorem only_the_teacher_deletes req w :
  (∀ quiz course,
     quizzes w !! params_quizId req = Some quiz →
     courses w !! quiz_courseId quiz = Some course →
     caller req ≠ Some (teacherId course)) →
  ∃ res1 w1 res2 w2,
    deleteQuiz teacherId req w = (Returned res1, w1)
    ∧ deleteQuestion teacherId req w = (Returned res2, w2)
    ∧ quizzes w1 = quizzes w
    ∧ quizzes w2 = quizzes w
    ∧ quiz_status res1 ∈ [403; 404; 500]
    ∧ quiz_status res2 ∈ [403; 404; 500].
Proof.
  intros Hnot. unfold deleteQuiz, deleteQuestion. run_quiz.
  destruct (failing w (length (calls w))); run_quiz;
    [eexists _, _, _, _; repeat split; rewrite !elem_of_cons; auto|].
  destruct (quizzes w !! params_quizId req) as [quiz|] eqn:Hquiz; run_quiz;
    [|eexists _, _, _, _; repeat split; rewrite !elem_of_cons; auto].
  destruct (failing w _); run_quiz;
    [eexists _, _, _, _; repeat split; rewrite !elem_of_cons; auto|].
  destruct (courses w !! quiz_courseId quiz) as [course|] eqn:Hcourse;
    run_quiz;
    [|eexists _, _, _, _; repeat split; rewrite !elem_of_cons; auto].
  assert (Hdenied : notTeacher teacherId course (caller req) = true).
  { unfold notTeacher. apply negb_true_iff, bool_decide_eq_false.
    intros Heq. by apply (Hnot quiz course). }
  rewrite Hdenied. run_quiz.
  eexists _, _, _, _; repeat split; rewrite !elem_of_cons; auto.
Qed.

(** X19. The teacher deletes one question: with a store that does not fail,
    [deleteQuestion] removes the first question that carries the identifier
    of the path and no other, and answers 200 with the removed question as it
    was read.  The quiz is saved under its [quizId] with the remaining
    questions in their order; saving writes the defaults of the schema for
    the attributes that the quiz, a question or an option lacks ([timeLimit]
    0, [passingScore] 70, [shuffleQuestions] false, [points] 1, [isCorrect]
    false) and keeps every attribute that is present: the identifiers, texts
    and types of the remaining questions are those they had. *)
Theorem deleteQuestion_removes_the_first_match
    req w (quiz : Quiz) (course : Course)
    (before after : list Question) (removed : Question) :
  (∀ n, failing w n = false) →
  quizzes w !! params_quizId req = Some quiz →
  quizId quiz = params_quizId req →
  courses w !! quiz_courseId quiz = Some course →
  caller req = Some (teacherId course) →
  questions quiz = Some (before ++ removed :: after)%list →
  questionId removed = params_questionId req →
  (∀ q, q ∈ before → questionId q ≠ params_questionId req) →
  ∃ res w',
    deleteQuestion teacherId req w = (Returned res, w')
    ∧ quiz_status res = 200
    ∧ quiz_data res = QuestionData removed
    ∧ quizzes w'
      = <[params_quizId req :=
            mkQuiz (quizId quiz) (quiz_courseId quiz) (title quiz)
              (description quiz)
              (Some (default 0%Q (timeLimit quiz)))
              (Some (default 70%Q (passingScore quiz)))
              (Some (default false (shuffleQuestions quiz)))
              (Some (questionDefaults <$> (before ++ after)%list))]>
          (quizzes w)
    ∧ (∀ q, q ∈ (before ++ after)%list →
         questionId (questionDefaults q) = questionId q
         ∧ question_text (questionDefaults q) = question_text q
         ∧ question_type (questionDefaults q) = question_type q
         ∧ correctAnswerExplanation (questionDefaults q)
           = correctAnswerExplanation q
         ∧ (∀ p, points q = Some p → points (questionDefaults q) = Some p)
         ∧ (points q = None → points (questionDefaults q) = Some 1%Q)).
Proof.
  intros Hok Hquiz Hid Hcourse Hcaller Hquestions Hremoved Hbefore.
  assert (Hfind : findIndex (params_questionId req)
                    (before ++ removed :: after)
                  = Some (length before, removed)).
  { unfold findIndex. apply list_find_Some. split; [|split; [done|]].
    - by rewrite list_lookup_middle.
    - intros j y Hj Hlt. rewrite lookup_app_l in Hj by done.
      apply Hbefore. eapply list_elem_of_lookup_2, Hj. }
  assert (Hteacher : notTeacher teacherId course (caller req) = false).
  { unfold notTeacher. apply negb_false_iff, bool_decide_eq_true. done. }
  unfold deleteQuestion. run_quiz. rewrite Hok. run_quiz.
  rewrite Hquiz. run_quiz. rewrite Hok. run_quiz.
  rewrite Hcourse. run_quiz. rewrite Hteacher, Hquestions. run_quiz.
  rewrite Hfind. run_quiz. rewrite Hok. run_quiz.
  eexists _, _. split; [reflexivity|]. simpl.
  split; [done|]. split; [done|]. split.
  - unfold withoutQuestion, quizDefaults. rewrite Hquestions, Hid. simpl.
    by rewrite delete_middle.
  - intros q _. unfold questionDefaults. simpl. repeat split.
    + by intros p ->.
    + by intros ->.
Qed.

(** X20. The teacher deletes a quiz: with a store that does not fail,
    [deleteQuiz] answers 200 with the quiz, removes it and no other quiz, and
    [getQuiz] for the same identifier then answers 404. *)
Theorem deleteQuiz_then_getQuiz req w (quiz : Quiz) (course : Course) :
  (∀ n, failing w n = false) →
  quizzes w !! params_quizId req = Some quiz →
  courses w !! quiz_courseId quiz = Some course →
  caller req = Some (teacherId course) →
  ∃ res1 w1 res2 w2,
    deleteQuiz teacherId req w = (Returned res1, w1)
    ∧ getQuiz req w1 = (Returned res2, w2)
    ∧ quiz_status res1 = 200
    ∧ quiz_data res1 = QuizData quiz
    ∧ quizzes w1 = delete (params_quizId req) (quizzes w)
    ∧ (∀ other, other ≠ params_quizId req →
         quizzes w1 !! other = quizzes w !! other)
    ∧ quiz_status res2 = 404
    ∧ quizzes w2 = quizzes w1.
Proof.
  intros Hok Hquiz Hcourse Hcaller.
  assert (Hteacher : notTeacher teacherId course (caller req) = false).
  { unfold notTeacher. apply negb_false_iff, bool_decide_eq_true. done. }
  unfold deleteQuiz, getQuiz. run_quiz. rewrite Hok. run_quiz.
  rewrite Hquiz. run_quiz. rewrite Hok. run_quiz.
  rewrite Hcourse. run_quiz. rewrite Hteacher. run_quiz.
  rewrite Hok. run_quiz.
  eexists _, _, _, _. split; [reflexivity|]. run_quiz.
  rewrite Hok. run_quiz. rewrite lookup_delete_eq.
  split; [reflexivity|]. simpl. repeat split.
  intros other Hne. by rewrite lookup_delete_ne.
Qed.

End QuizControllerProperties.

Lemma only_the_teacher_deletes_witness :
  ∃ res1 w1 res2 w2,
    deleteQuiz id studentRequest quizWorld = (Returned res1, w1)
    ∧ deleteQuestion id studentRequest quizWorld = (Returned res2, w2)
    ∧ quizzes w1 = quizzes quizWorld
    ∧ quizzes w2 = quizzes quizWorld
    ∧ quiz_status res1 ∈ [403; 404; 500]
    ∧ quiz_status res2 ∈ [403; 404; 500].
Proof.
  apply (only_the_teacher_deletes id studentRequest quizWorld).
  intros quiz course Hquiz Hcourse.
  assert (Hq : quizzes quizWorld !! params_quizId studentRequest
               = Some sampleQuiz) by reflexivity.
  rewrite Hq in Hquiz. injection Hquiz as <-.
  assert (Hc : courses quizWorld !! quiz_courseId sampleQuiz = Some "t-1")
    by reflexivity.
  rewrite Hc in Hcourse. injection Hcourse as <-.
  discriminate.
Defined.

Lemma deleteQuestion_removes_the_first_match_witness :
  ∃ res w',
    deleteQuestion id teacherRequest quizWorld = (Returned res, w')
    ∧ quiz_status res = 200
    ∧ quiz_data res = QuestionData (sampleQuestion "b" "second")
    ∧ quizzes w'
      = <["quiz-1" :=
            mkQuiz "quiz-1" "c-1" "Week 1" None (Some 0%Q) (Some 70%Q)
              (Some false)
              (Some [mkQuestion "a" "first" "Essay" None (Some 1%Q) None;
                     mkQuestion "b" "third" "Essay" None (Some 1%Q) None])]>
          (quizzes quizWorld).
Proof.
  destruct (deleteQuestion_removes_the_first_match id teacherRequest
              quizWorld sampleQuiz "t-1" [sampleQuestion "a" "first"]
              [sampleQuestion "b" "third"] (sampleQuestion "b" "second"))
    as (res & w' & Hrun & Hstatus & Hdata & Hstore & _);
    try reflexivity.
  - intros q Hq. apply list_elem_of_singleton in Hq as ->. discriminate.
  - exists res, w'. repeat split; assumption.
Defined.

Lemma deleteQuiz_then_getQuiz_witness :
  ∃ res1 w1 res2 w2,
    deleteQuiz id teacherRequest quizWorld = (Returned res1, w1)
    ∧ getQuiz teacherRequest w1 = (Returned res2, w2)
    ∧ quiz_status res1 = 200
    ∧ quiz_data res1 = QuizData sampleQuiz
    ∧ quizzes w1 = delete "quiz-1" (quizzes quizWorld)
    ∧ (∀ other, other ≠ "quiz-1" →
         quizzes w1 !! other = quizzes quizWorld !! other)
    ∧ quiz_status res2 = 404
    ∧ quizzes w2 = quizzes w1.
Proof.
  apply (deleteQuiz_then_getQuiz id teacherRequest quizWorld sampleQuiz "t-1");
    reflexivity.
Defined.

(** * What changes the stored progress *)

(** X21. The stored records change only through a request that passes the
    access gate, on a route other than the statistics, and that is answered
    200: a request answered 400, 403, 404 or 500 has written nothing. *)
Theorem store_changes_only_on_success
    (route : Route) (req : Request) (w : World)
    (res : Response) (w' : World) :
  router route req w = (Returned res, w') →
  db w' ≠ db w →
  status res = 200
  ∧ route ≠ GetStatistics
  ∧ verifiedIdentity req = Some (params_userId req).
Proof.
  intros Hrun Hchanged.
  assert (Hgate : accessDenied (getAuth req) (params_userId req) = false).
  { destruct (accessDenied _ _) eqn:Hd; [|done]. exfalso.
    destruct route; simpl in Hrun;
      unfold getStudentProgress, recordLessonAccess, recordQuizAttempt,
        recordDiscussionActivity, getStudentStatistics in Hrun;
      rewrite Hd in Hrun; injection Hrun as _ <-; done. }
  split; [|split; [|by apply accessDenied_false_iff]].
  - destruct (decide (status res = 200)) as [|Hne]; [done|].
    by pose proof (router_failure_leaves_the_store _ _ _ _ _ Hrun Hne).
  - intros ->. simpl in Hrun. apply Hchanged. revert Hrun.
    unfold getStudentStatistics. rewrite Hgate.
    repeat (run_handler; try case_match; simplify_eq/=);
      intros; by simplify_eq/=.
Qed.

Lemma store_changes_only_on_success_witness :
  status (mkResponse 200 "Student progress initialized"
            (ProgressData
               (mkStudentProgress "alice" [] [] []
                  "2024-05-01T10:00:00.000Z"))) = 200
  ∧ GetProgress ≠ GetStatistics
  ∧ verifiedIdentity (aliceRequest ∅) = Some "alice".
Proof.
  apply (store_changes_only_on_success GetProgress (aliceRequest ∅)
           quietWorld _ (getStudentProgress (aliceRequest ∅) quietWorld).2).
  - reflexivity.
  - intros Heq. apply (f_equal (fun records => records !! "alice")) in Heq.
    vm_compute in Heq. discriminate.
Defined.

Section QuizQuestionNotFound.
Context {Course : Type} (teacherId : Course → string).

(** X22. When the quiz has no list of questions, or none of its questions
    carries the identifier of the path, [deleteQuestion] answers the teacher
    of the course 404 and saves nothing: the quizzes are unchanged and the
    stores were only read. *)
Theorem deleteQuestion_unknown_question
    (req : QuizRequest) (w : QuizWorld (Course := Course))
    (quiz : Quiz) (course : Course) :
  (∀ n, failing w n = false) →
  quizzes w !! params_quizId req = Some quiz →
  courses w !! quiz_courseId quiz = Some course →
  caller req = Some (teacherId course) →
  (∀ all q, questions quiz = Some all → q ∈ all →
     questionId q ≠ params_questionId req) →
  ∃ res w',
    deleteQuestion teacherId req w = (Returned res, w')
    ∧ quiz_status res = 404
    ∧ quizzes w' = quizzes w
    ∧ calls w'
      = (calls w ++ [CallQuizGet (params_quizId req);
                     CallCourseGet (quiz_courseId quiz)])%list.
Proof.
  intros Hok Hquiz Hcourse Hcaller Hnone.
  assert (Hteacher : notTeacher teacherId course (caller req) = false).
  { unfold notTeacher. apply negb_false_iff, bool_decide_eq_true. done. }
  unfold deleteQuestion. run_quiz. rewrite Hok. run_quiz.
  rewrite Hquiz. run_quiz. rewrite Hok. run_quiz.
  rewrite Hcourse. run_quiz. rewrite Hteacher.
  destruct (questions quiz) as [all|] eqn:Hall; run_quiz.
  - assert (Hfind : findIndex (params_questionId req) all = None).
    { unfold findIndex. apply list_find_None, Forall_forall.
      intros q Hq. by apply (Hnone all). }
    rewrite Hfind. run_quiz.
    eexists _, _. split; [reflexivity|]. simpl.
    by rewrite <- app_assoc.
  - eexists _, _. split; [reflexivity|]. simpl.
    by rewrite <- app_assoc.
Qed.

End QuizQuestionNotFound.

Lemma deleteQuestion_unknown_question_witness :
  ∃ res w',
    deleteQuestion id (mkQuizRequest "quiz-1" "z" (Some "t-1")) quizWorld
    = (Returned res, w')
    ∧ quiz_status res = 404
    ∧ quizzes w' = quizzes quizWorld
    ∧ calls w'
      = (calls quizWorld ++ [CallQuizGet "quiz-1"; CallCourseGet "c-1"])%list.
Proof.
  apply (deleteQuestion_unknown_question id
           (mkQuizRequest "quiz-1" "z" (Some "t-1")) quizWorld
           sampleQuiz "t-1"); try reflexivity.
  intros all q [= <-] Hq. rewrite !elem_of_cons, elem_of_nil in Hq.
  destruct Hq as [->|[->|[->|[]]]]; discriminate.
Defined.
